(** * Currency Exchange Helper: the recognition-and-stabilisation core

    A shallow embedding of [src/app.py]: the reading record and its key,
    the stability (debounce) fields of [MainWindow] and the handlers that
    mutate them, the expected-value and direction resolver, the ratio
    scoring function and the token values it scores, the image helpers
    of the ratio engine (binarisation, the 1-vs-7 shape classifier, the
    gap split) and the fallback text parser.

    Python [float] is IEEE binary64, which is what Rocq's primitive
    [float] is, so float expressions are embedded operation for operation.
    Python [int] is unbounded and is embedded as [Z]. *)

From Stdlib Require Import ZArith List Bool Floats Lia String Ascii.
Import ListNotations.

Set Warnings "-inexact-float".

Open Scope Z_scope.

(** ** Python's numeric builtins on binary64 *)

Module PyFloat.

(** [float(z)] for an [int] with [|z| < 2^63]: correctly rounded, and
    exact below [2^53].  Every integer converted in this program is an
    image dimension, a pixel count or a number of at most eight digits. *)
Definition of_int (z : Z) : float :=
  match z with
  | Z0 => PrimFloat.zero
  | Zpos _ => PrimFloat.of_uint63 (Uint63.of_Z z)
  | Zneg p => PrimFloat.opp (PrimFloat.of_uint63 (Uint63.of_Z (Zpos p)))
  end.

(** [a / b] on two ints (true division); the callers guard [b <> 0]. *)
Definition truediv (a b : Z) : float := PrimFloat.div (of_int a) (of_int b).

(** [m / 2^k] rounded to the nearest integer, ties to the even one. *)
Definition half_even_shift (m k : Z) : Z :=
  let q := Z.shiftr m k in
  let r := m - Z.shiftl q k in
  let half := Z.shiftl 1 (k - 1) in
  if r <? half then q
  else if half <? r then q + 1
  else if Z.even q then q else q + 1.

(** [round(x)]: nearest integer, ties to even; [None] stands for the
    [ValueError] / [OverflowError] raised on nan and the infinities. *)
Definition py_round (x : float) : option Z :=
  match Prim2SF x with
  | S754_zero _ => Some 0
  | S754_finite s m e =>
      let v := if 0 <=? e then Z.shiftl (Zpos m) e
               else half_even_shift (Zpos m) (- e) in
      Some (if s then - v else v)
  | S754_infinity _ | S754_nan => None
  end.

(** [int(x)]: truncation toward zero; [None] as for [py_round]. *)
Definition py_int (x : float) : option Z :=
  match Prim2SF x with
  | S754_zero _ => Some 0
  | S754_finite s m e =>
      let v := if 0 <=? e then Z.shiftl (Zpos m) e
               else Z.shiftr (Zpos m) (- e) in
      Some (if s then - v else v)
  | S754_infinity _ | S754_nan => None
  end.

(** [int(z * c)] where [z] is an image dimension and [c] a literal: the
    product is finite, so the conversion cannot raise. *)
Definition int_scaled (z : Z) (c : float) : Z :=
  match py_int (PrimFloat.mul (of_int z) c) with
  | Some v => v
  | None => 0
  end.

(** [round(x, 2)]: the double nearest to the two-decimal value nearest
    to the exact value of [x] (ties to even).  From [2^46] on, the
    spacing of doubles exceeds 0.01 and [x] is returned; nan, the
    infinities and the zeros round to themselves. *)
Definition round2 (x : float) : float :=
  match Prim2SF x with
  | S754_finite s m e =>
      if -6 <=? e then x
      else
        let n := half_even_shift (Zpos m * 100) (- e) in
        let r := PrimFloat.div (of_int n) (of_int 100) in
        if s then PrimFloat.opp r else r
  | _ => x
  end.

(** Comparison operators, as Python evaluates them on floats. *)
Definition gt (x y : float) : bool := PrimFloat.ltb y x.
Definition ge (x y : float) : bool := PrimFloat.leb y x.
Definition lt (x y : float) : bool := PrimFloat.ltb x y.
Definition le (x y : float) : bool := PrimFloat.leb x y.
Definition eq (x y : float) : bool := PrimFloat.eqb x y.
Definition ne (x y : float) : bool := negb (PrimFloat.eqb x y).

(** Truthiness of a float: [bool(x)] is [x != 0]. *)
Definition truthy (x : float) : bool := ne x PrimFloat.zero.

End PyFloat.

Import PyFloat.

(** ** Data model *)

Record Region := {
  left : Z;
  top : Z;
  width : Z;
  height : Z
}.

(** [ParseResult]: the reading exchanged between the components. *)
Record ParseResult := {
  items : option Z;
  listing_price : option Z;
  ratio_num : option float;
  ratio_den : option float;
  raw_text : string;
  left_value : option Z;
  right_value : option Z
}.

(** The tuple returned by [ParseResult.key]. *)
Definition Key : Type := option float * option float * option Z * option Z.

Definition key (self : ParseResult) : Key :=
  (option_map round2 self.(ratio_num),
   option_map round2 self.(ratio_den),
   self.(left_value),
   self.(right_value)).

(** [==] on the components of a key: [None] equals only [None], floats
    compare as IEEE values (so nan differs from itself: [round] returns a
    fresh object, and the identity shortcut of tuple comparison never
    applies), ints as integers. *)
Definition opt_eq {A : Type} (eqb : A -> A -> bool) (a b : option A) : bool :=
  match a, b with
  | None, None => true
  | Some x, Some y => eqb x y
  | _, _ => false
  end.

Definition key_eq (k1 k2 : Key) : bool :=
  let '(n1, d1, l1, r1) := k1 in
  let '(n2, d2, l2, r2) := k2 in
  opt_eq PyFloat.eq n1 n2 && opt_eq PyFloat.eq d1 d2
  && opt_eq Z.eqb l1 l2 && opt_eq Z.eqb r1 r2.

(** [key == self._pending_key], the right-hand side being [None] or a key. *)
Definition key_eq_pending (k : Key) (pending : option Key) : bool :=
  match pending with
  | Some p => key_eq k p
  | None => false
  end.

Definition has_ratio (self : ParseResult) : bool :=
  match self.(ratio_num), self.(ratio_den) with
  | Some _, Some den => gt (PrimFloat.abs den) 1e-9
  | _, _ => false
  end.

(** The direction strings ["auto"], ["from_left"], ["from_right"]. *)
Inductive Mode := auto | from_left | from_right.

Definition Mode_eqb (a b : Mode) : bool :=
  match a, b with
  | auto, auto | from_left, from_left | from_right, from_right => true
  | _, _ => false
  end.

(** The fields of [MainWindow] that the cycle handlers read and write
    (widgets, timers and the busy flag are left out). *)
Record MainWindow := {
  _ratio_region : option Region;
  _left_region : option Region;
  _right_region : option Region;
  _select_target : option string;
  _last_good : option ParseResult;
  _bad_streak : Z;
  _pending_key : option Key;
  _pending_count : Z;
  _swap_sides : bool;
  _calc_mode : Mode;
  _auto_direction : Mode;
  _last_inputs : option (Z * Z)
}.

(** [MainWindow.__init__], before the configuration file is read. *)
Definition init : MainWindow := {|
  _ratio_region := None;
  _left_region := None;
  _right_region := None;
  _select_target := None;
  _last_good := None;
  _bad_streak := 0;
  _pending_key := None;
  _pending_count := 0;
  _swap_sides := false;
  _calc_mode := auto;
  _auto_direction := from_right;
  _last_inputs := None
|}.

(** Field updates. *)
Definition set_regions (st : MainWindow) (r l g : option Region) : MainWindow :=
  {| _ratio_region := r; _left_region := l; _right_region := g;
     _select_target := st.(_select_target);
     _last_good := st.(_last_good); _bad_streak := st.(_bad_streak);
     _pending_key := st.(_pending_key); _pending_count := st.(_pending_count);
     _swap_sides := st.(_swap_sides); _calc_mode := st.(_calc_mode);
     _auto_direction := st.(_auto_direction); _last_inputs := st.(_last_inputs) |}.

Definition set_select_target (st : MainWindow) (t : option string) : MainWindow :=
  {| _ratio_region := st.(_ratio_region); _left_region := st.(_left_region);
     _right_region := st.(_right_region); _select_target := t;
     _last_good := st.(_last_good); _bad_streak := st.(_bad_streak);
     _pending_key := st.(_pending_key); _pending_count := st.(_pending_count);
     _swap_sides := st.(_swap_sides); _calc_mode := st.(_calc_mode);
     _auto_direction := st.(_auto_direction); _last_inputs := st.(_last_inputs) |}.

Definition set_last_good (st : MainWindow) (g : option ParseResult) : MainWindow :=
  {| _ratio_region := st.(_ratio_region); _left_region := st.(_left_region);
     _right_region := st.(_right_region); _select_target := st.(_select_target);
     _last_good := g; _bad_streak := st.(_bad_streak);
     _pending_key := st.(_pending_key); _pending_count := st.(_pending_count);
     _swap_sides := st.(_swap_sides); _calc_mode := st.(_calc_mode);
     _auto_direction := st.(_auto_direction); _last_inputs := st.(_last_inputs) |}.

Definition set_bad_streak (st : MainWindow) (b : Z) : MainWindow :=
  {| _ratio_region := st.(_ratio_region); _left_region := st.(_left_region);
     _right_region := st.(_right_region); _select_target := st.(_select_target);
     _last_good := st.(_last_good); _bad_streak := b;
     _pending_key := st.(_pending_key); _pending_count := st.(_pending_count);
     _swap_sides := st.(_swap_sides); _calc_mode := st.(_calc_mode);
     _auto_direction := st.(_auto_direction); _last_inputs := st.(_last_inputs) |}.

Definition set_pending_key (st : MainWindow) (k : option Key) : MainWindow :=
  {| _ratio_region := st.(_ratio_region); _left_region := st.(_left_region);
     _right_region := st.(_right_region); _select_target := st.(_select_target);
     _last_good := st.(_last_good); _bad_streak := st.(_bad_streak);
     _pending_key := k; _pending_count := st.(_pending_count);
     _swap_sides := st.(_swap_sides); _calc_mode := st.(_calc_mode);
     _auto_direction := st.(_auto_direction); _last_inputs := st.(_last_inputs) |}.

Definition set_pending_count (st : MainWindow) (c : Z) : MainWindow :=
  {| _ratio_region := st.(_ratio_region); _left_region := st.(_left_region);
     _right_region := st.(_right_region); _select_target := st.(_select_target);
     _last_good := st.(_last_good); _bad_streak := st.(_bad_streak);
     _pending_key := st.(_pending_key); _pending_count := c;
     _swap_sides := st.(_swap_sides); _calc_mode := st.(_calc_mode);
     _auto_direction := st.(_auto_direction); _last_inputs := st.(_last_inputs) |}.

Definition set_swap_sides (st : MainWindow) (b : bool) : MainWindow :=
  {| _ratio_region := st.(_ratio_region); _left_region := st.(_left_region);
     _right_region := st.(_right_region); _select_target := st.(_select_target);
     _last_good := st.(_last_good); _bad_streak := st.(_bad_streak);
     _pending_key := st.(_pending_key); _pending_count := st.(_pending_count);
     _swap_sides := b; _calc_mode := st.(_calc_mode);
     _auto_direction := st.(_auto_direction); _last_inputs := st.(_last_inputs) |}.

Definition set_calc_mode (st : MainWindow) (m : Mode) : MainWindow :=
  {| _ratio_region := st.(_ratio_region); _left_region := st.(_left_region);
     _right_region := st.(_right_region); _select_target := st.(_select_target);
     _last_good := st.(_last_good); _bad_streak := st.(_bad_streak);
     _pending_key := st.(_pending_key); _pending_count := st.(_pending_count);
     _swap_sides := st.(_swap_sides); _calc_mode := m;
     _auto_direction := st.(_auto_direction); _last_inputs := st.(_last_inputs) |}.

Definition set_auto_direction (st : MainWindow) (m : Mode) : MainWindow :=
  {| _ratio_region := st.(_ratio_region); _left_region := st.(_left_region);
     _right_region := st.(_right_region); _select_target := st.(_select_target);
     _last_good := st.(_last_good); _bad_streak := st.(_bad_streak);
     _pending_key := st.(_pending_key); _pending_count := st.(_pending_count);
     _swap_sides := st.(_swap_sides); _calc_mode := st.(_calc_mode);
     _auto_direction := m; _last_inputs := st.(_last_inputs) |}.

Definition set_last_inputs (st : MainWindow) (i : option (Z * Z)) : MainWindow :=
  {| _ratio_region := st.(_ratio_region); _left_region := st.(_left_region);
     _right_region := st.(_right_region); _select_target := st.(_select_target);
     _last_good := st.(_last_good); _bad_streak := st.(_bad_streak);
     _pending_key := st.(_pending_key); _pending_count := st.(_pending_count);
     _swap_sides := st.(_swap_sides); _calc_mode := st.(_calc_mode);
     _auto_direction := st.(_auto_direction); _last_inputs := i |}.

(** A call either returns a value or raises. *)
Inductive Outcome (A : Type) : Type :=
| Returns (a : A)
| Raises.
Arguments Returns {A} a.
Arguments Raises {A}.

Definition bind {A B : Type} (c : Outcome A) (k : A -> Outcome B) : Outcome B :=
  match c with
  | Returns a => k a
  | Raises => Raises
  end.

Notation "x <- c ;; k" := (bind c (fun x => k))
  (at level 61, c at next level, right associativity).

(** ** Configuration handlers *)

(** [_set_region]: stores the region under the pending target and clears
    the stability fields. *)
Definition _set_region (st : MainWindow) (region : Region) : MainWindow :=
  let st :=
    match st.(_select_target) with
    | Some t =>
        if String.eqb t "ratio" then
          set_regions st (Some region) st.(_left_region) st.(_right_region)
        else if String.eqb t "left" then
          set_regions st st.(_ratio_region) (Some region) st.(_right_region)
        else if String.eqb t "right" then
          set_regions st st.(_ratio_region) st.(_left_region) (Some region)
        else st
    | None => st
    end in
  let st := set_select_target st None in
  let st := set_last_good st None in
  let st := set_pending_key st None in
  set_pending_count st 0.

(** [_pick_region] followed by the selector's [region_selected] signal. *)
Definition reselect_region (st : MainWindow) (target : string) (region : Region)
  : MainWindow :=
  _set_region (set_select_target st (Some target)) region.

(** [_toggle_swap]; [checked] is [state == Qt.CheckState.Checked]. *)
Definition _toggle_swap (st : MainWindow) (checked : bool) : MainWindow :=
  let st := set_swap_sides st checked in
  let st := set_last_good st None in
  let st := set_pending_key st None in
  let st := set_pending_count st 0 in
  set_last_inputs st None.

(** [_change_mode]. *)
Definition _change_mode (st : MainWindow) (index : Z) : MainWindow :=
  let st :=
    if index =? 1 then set_calc_mode st from_right
    else if index =? 2 then set_calc_mode st from_left
    else set_calc_mode st auto in
  set_last_inputs st None.

(** ** The cycle handler *)

Definition _is_valid_result (result : ParseResult) : bool :=
  if negb (has_ratio result) then false
  else
    match result.(left_value), result.(right_value) with
    | None, None => false
    | l, r =>
        if match l with Some v => v <=? 0 | None => false end then false
        else if match r with Some v => v <=? 0 | None => false end then false
        else true
    end.

Definition _compute_expected (left_input right_input : option Z)
    (result : ParseResult) : Outcome (option Z * option Z) :=
  match result.(ratio_num) with
  | None => Returns (None, None)
  | Some num =>
      if negb (has_ratio result) || lt (PrimFloat.abs num) 1e-9
      then Returns (None, None)
      else
        match result.(ratio_den) with
        | None => Returns (None, None)
        | Some den =>
            expected_left <-
              match right_input with
              | Some r =>
                  match py_round (PrimFloat.mul (of_int r) (PrimFloat.div num den)) with
                  | Some v => Returns (Some v)
                  | None => Raises
                  end
              | None => Returns None
              end ;;
            expected_right <-
              match left_input with
              | Some l =>
                  match py_round (PrimFloat.mul (of_int l) (PrimFloat.div den num)) with
                  | Some v => Returns (Some v)
                  | None => Raises
                  end
              | None => Returns None
              end ;;
            Returns (expected_left, expected_right)
        end
  end.

(** [_resolve_mode]: the direction returned and the window, whose
    [_auto_direction] the call may have changed. *)
Definition _resolve_mode (st : MainWindow) (left_input right_input : option Z)
    (ratio_num ratio_den : option float) : Mode * MainWindow :=
  if negb (Mode_eqb st.(_calc_mode) auto) then (st.(_calc_mode), st)
  else
    match left_input, right_input with
    | None, Some _ => (from_right, st)
    | Some _, None => (from_left, st)
    | None, None => (st.(_auto_direction), st)
    | Some left_input, Some right_input =>
        let st :=
          match ratio_num, ratio_den with
          | Some num, Some den =>
              if ne den PrimFloat.zero then
                if lt num den then set_auto_direction st from_left
                else if gt num den then set_auto_direction st from_right
                else st
              else st
          | _, _ => st
          end in
        match st.(_last_inputs) with
        | None => (st.(_auto_direction), st)
        | Some (last_left, last_right) =>
            let left_delta := Z.abs (left_input - last_left) in
            let right_delta := Z.abs (right_input - last_right) in
            if (left_delta =? 0) && (right_delta =? 0) then (st.(_auto_direction), st)
            else
              let st :=
                if left_delta >=? right_delta then set_auto_direction st from_left
                else set_auto_direction st from_right in
              (st.(_auto_direction), st)
        end
    end.

Definition _compute_confidence (result : ParseResult) : Z :=
  let score := 0 in
  let score := if has_ratio result then score + 50 else score in
  let score := match result.(left_value) with Some _ => score + 25 | None => score end in
  let score := match result.(right_value) with Some _ => score + 25 | None => score end in
  score.

Definition _build_status (result : ParseResult) : string :=
  if negb (has_ratio result) then "Looking for market ratio..."
  else match result.(left_value) with
       | None => "Looking for I want..."
       | Some _ =>
           match result.(right_value) with
           | None => "Looking for I have..."
           | Some _ => "OCR updated."
           end
       end.

(** [_format_ratio_value] produces label text, which is not modelled; the
    handler only depends on whether the call returns: its [round(value)]
    raises on nan and on the infinities. *)
Definition _format_ratio_value_returns (value : option float) : bool :=
  match value with
  | None => true
  | Some v => match py_round v with Some _ => true | None => false end
  end.

(** Lines 1371-1385 of [_handle_result]: the debounce step. *)
Definition stabilize (st : MainWindow) (result : ParseResult) : MainWindow :=
  if _is_valid_result result then
    let k := key result in
    let st :=
      if key_eq_pending k st.(_pending_key)
      then set_pending_count st (st.(_pending_count) + 1)
      else set_pending_count (set_pending_key st (Some k)) 1 in
    if st.(_pending_count) >=? 2
    then set_bad_streak (set_last_good st (Some result)) 0
    else st
  else
    let st := set_pending_key st None in
    let st := set_pending_count st 0 in
    set_bad_streak st (st.(_bad_streak) + 1).

(** What one cycle puts on screen. *)
Record Shown := {
  display : ParseResult;
  expected_left : option Z;
  expected_right : option Z;
  mode : Mode;
  confidence : Z;
  status : string
}.

(** [_handle_result]: the window after the call and what was shown, or
    [Raises] with the window as the exception left it. *)
Definition _handle_result (st : MainWindow) (result : ParseResult)
  : MainWindow * Outcome Shown :=
  let is_valid := _is_valid_result result in
  let st := stabilize st result in
  let display :=
    if is_valid then result
    else match st.(_last_good) with Some g => g | None => result end in
  let left_input := display.(left_value) in
  let right_input := display.(right_value) in
  if has_ratio display
     && negb (_format_ratio_value_returns display.(ratio_num)
              && _format_ratio_value_returns display.(ratio_den))
  then (st, Raises)
  else
    match _compute_expected left_input right_input display with
    | Raises => (st, Raises)
    | Returns (expected_left, expected_right) =>
        let '(mode, st) :=
          _resolve_mode st left_input right_input
                        display.(ratio_num) display.(ratio_den) in
        let st :=
          match left_input, right_input with
          | Some l, Some r => if is_valid then set_last_inputs st (Some (l, r)) else st
          | _, _ => st
          end in
        let status :=
          if negb is_valid
             && match st.(_last_good) with Some _ => true | None => false end
             && (st.(_bad_streak) <=? 3)
          then "OCR unstable; holding last good values."%string
          else _build_status display in
        (st, Returns {| display := display;
                        expected_left := expected_left;
                        expected_right := expected_right;
                        mode := mode;
                        confidence := _compute_confidence display;
                        status := status |})
    end.

(** The external events of a session and the states they reach. *)
Inductive Event :=
| Reading (result : ParseResult)
| RegionSelected (target : string) (region : Region)
| SwapToggled (checked : bool)
| ModeChanged (index : Z).

Definition step (st : MainWindow) (ev : Event) : MainWindow :=
  match ev with
  | Reading result => fst (_handle_result st result)
  | RegionSelected target region => reselect_region st target region
  | SwapToggled checked => _toggle_swap st checked
  | ModeChanged index => _change_mode st index
  end.

Definition run (st : MainWindow) (evs : list Event) : MainWindow :=
  fold_left step evs st.

(** [_normalize_inputs] and the reading that [_capture_and_ocr] assembles
    from the three recognised values. *)
Definition _normalize_inputs (st : MainWindow) (left_value right_value : option Z)
  : option Z * option Z :=
  if st.(_swap_sides) then (right_value, left_value)
  else (left_value, right_value).

Definition assemble_reading (st : MainWindow) (ratio_num ratio_den : option float)
    (left_value right_value : option Z) (raw_text : string) : ParseResult :=
  let '(left_input, right_input) := _normalize_inputs st left_value right_value in
  {| items := right_input;
     listing_price := left_input;
     ratio_num := ratio_num;
     ratio_den := ratio_den;
     raw_text := raw_text;
     left_value := left_input;
     right_value := right_input |}.

(** A reading as an unswapped cycle delivers it. *)
Definition reading_of (num den : float) (left_value right_value : option Z)
  : ParseResult :=
  assemble_reading init (Some num) (Some den) left_value right_value "".

(** [_load_regions], run once by [__init__]: the regions, the swap flag
    and the mode come from the configuration file when there is one. *)
Record Config := {
  cfg_ratio_region : option Region;
  cfg_left_region : option Region;
  cfg_right_region : option Region;
  cfg_swap_sides : bool;
  cfg_calc_mode : Mode
}.

Definition _load_regions (st : MainWindow) (config : option Config) : MainWindow :=
  match config with
  | None => st
  | Some c =>
      let st := set_regions st c.(cfg_ratio_region) c.(cfg_left_region)
                            c.(cfg_right_region) in
      let st := set_swap_sides st c.(cfg_swap_sides) in
      set_calc_mode st c.(cfg_calc_mode)
  end.

Definition startup (config : option Config) : MainWindow :=
  _load_regions init config.


(** ** Ratio scoring *)

Definition _score_ratio (num den : float) (explicit_decimal inferred_decimal : bool)
  : Z :=
  let score := 0 in
  let score := if gt num 0 && gt den 0 then score + 10 else score in
  let score :=
    if lt (PrimFloat.abs (PrimFloat.sub num 1)) 1e-6
       || lt (PrimFloat.abs (PrimFloat.sub den 1)) 1e-6
    then score + 4 else score in
  let score := if le num 10000 && le den 10000 then score + 4 else score in
  let score := if le num 1000 && le den 1000 then score + 2 else score in
  let score := if explicit_decimal then score + 3 else score in
  let score := if inferred_decimal then score + 1 else score in
  let score :=
    if gt (PrimFloat.abs (PrimFloat.sub num den)) 1e-6 then score + 1 else score in
  score.

(** ** Images

    A single-channel ("L") image: its size and its pixel access
    ([pixels[x, y]] after [load()]).  Every image that reaches the
    helpers below comes out of [_preprocess_variants], which works on a
    grayscale image, so [convert("L")] is the identity on them. *)
Record Image := {
  size : Z * Z;
  getpixel : Z -> Z -> Z
}.

(** [range(start, stop)]. *)
Definition range (start stop : Z) : list Z :=
  map (fun i => start + Z.of_nat i) (seq 0 (Z.to_nat (stop - start))).

(** [list(image.getdata())]: the pixels row by row. *)
Definition getdata (image : Image) : list Z :=
  let '(width, height) := image.(size) in
  flat_map (fun y => map (fun x => image.(getpixel) x y) (range 0 width))
           (range 0 height).

(** [image.point(f)], [ImageOps.invert(image)] and [image.crop(box)]. *)
Definition point (f : Z -> Z) (image : Image) : Image :=
  {| size := image.(size);
     getpixel := fun x y => f (image.(getpixel) x y) |}.

Definition invert (image : Image) : Image :=
  point (fun p => 255 - p) image.

Definition crop (image : Image) (box : Z * Z * Z * Z) : Image :=
  let '(x0, y0, x1, y1) := box in
  {| size := (x1 - x0, y1 - y0);
     getpixel := fun x y => image.(getpixel) (x + x0) (y + y0) |}.

(** An image given by its rows, for examples. *)
Definition of_rows (rows : list (list Z)) : Image :=
  {| size := (Z.of_nat (List.length (hd [] rows)), Z.of_nat (List.length rows));
     getpixel := fun x y =>
       if (x <? 0) || (y <? 0) then 0
       else nth (Z.to_nat x) (nth (Z.to_nat y) rows []) 0 |}.

Definition sum (values : list Z) : Z := fold_left Z.add values 0.

Definition _binarize_for_ratio (image : Image) : Image :=
  let gray := image in
  let pixels := getdata gray in
  match pixels with
  | [] => gray
  | _ :: _ =>
      let mean := truediv (sum pixels) (Z.of_nat (List.length pixels)) in
      let gray := if gt mean (of_int 127) then invert gray else gray in
      point (fun p => if p >? 128 then 255 else 0) gray
  end.

(** The counting loops: [for a in outer: for b in inner: if pixels[x, y] >
    0: count += 1], the cell visited being [(x, y) = at a b]. *)
Definition count_foreground (pixels : Image) (outer inner : list Z)
    (at_ : Z -> Z -> Z * Z) : Z :=
  fold_left
    (fun count a =>
       fold_left
         (fun count b =>
            let '(x, y) := at_ a b in
            if pixels.(getpixel) x y >? 0 then count + 1 else count)
         inner count)
    outer 0.

(** *** The 1-vs-7 shape classifier *)

(** The three densities of [_classify_digit_1_7], on the binarised crop. *)
Definition top_ratio (binary : Image) : float :=
  let '(width, height) := binary.(size) in
  let top_rows := Z.max 1 (int_scaled height 0.25) in
  let top_count :=
    count_foreground binary (range 0 top_rows) (range 0 width)
                     (fun y x => (x, y)) in
  truediv top_count (top_rows * width).

Definition vert_ratio (binary : Image) : float :=
  let '(width, height) := binary.(size) in
  let col_start := Z.max 0 (width / 2 - 1) in
  let col_end := Z.min width (col_start + 3) in
  let vert_count :=
    count_foreground binary (range 0 height) (range col_start col_end)
                     (fun y x => (x, y)) in
  truediv vert_count (height * Z.max 1 (col_end - col_start)).

Definition upper_right_ratio (binary : Image) : float :=
  let '(width, height) := binary.(size) in
  let upper_right_area := Z.max 1 ((width - width / 2) * (height / 2)) in
  let upper_right_count :=
    count_foreground binary (range 0 (height / 2)) (range (width / 2) width)
                     (fun y x => (x, y)) in
  truediv upper_right_count upper_right_area.

(** The four tests at the end of [_classify_digit_1_7], in order. *)
Definition decide_1_7 (top_ratio vert_ratio upper_right_ratio : float)
  : option string :=
  if ge top_ratio 0.5 && lt vert_ratio 0.7 then Some "7"%string
  else if le top_ratio 0.35 && ge vert_ratio 0.65 then Some "1"%string
  else if gt upper_right_ratio 0.35 && gt top_ratio 0.4 then Some "7"%string
  else if gt vert_ratio (PrimFloat.add upper_right_ratio 0.2) then Some "1"%string
  else None.

Definition _classify_digit_1_7 (image : Image) : option string :=
  let binary := _binarize_for_ratio image in
  let '(width, height) := binary.(size) in
  if (width <? 2) || (height <? 2) then None
  else decide_1_7 (top_ratio binary) (vert_ratio binary)
                  (upper_right_ratio binary).

(** *** The gap split *)

(** The scan for the emptiest column: [(min_count, min_idx)] after the
    loop over [columns]. *)
Definition gap_scan (counts : list Z) (columns : list Z)
  : option Z * option Z :=
  fold_left
    (fun '(min_count, min_idx) x =>
       let count := nth (Z.to_nat x) counts 0 in
       match min_count with
       | None => (Some count, Some x)
       | Some m => if count <? m then (Some count, Some x)
                   else (min_count, min_idx)
       end)
    columns (None, None).

(** The per-column foreground counts of [_split_ratio_by_gap]. *)
Definition column_counts (binary : Image) : list Z :=
  let '(width, height) := binary.(size) in
  map (fun x => count_foreground binary [x] (range 0 height) (fun x y => (x, y)))
      (range 0 width).

Definition _split_ratio_by_gap (image : Image) : option (Image * Image) :=
  let binary := _binarize_for_ratio image in
  let '(width, height) := binary.(size) in
  if (width <? 6) || (height <? 4) then None
  else
    let counts := column_counts binary in
    let start := int_scaled width 0.25 in
    let end_ := int_scaled width 0.75 in
    let '(min_count, min_idx) := gap_scan counts (range start end_) in
    match min_idx with
    | None => None
    | Some min_idx =>
        if match min_count with
           | Some m => m >? Z.max 2 (int_scaled height 0.15)
           | None => false
           end
        then None
        else
          let left_img := crop image (0, 0, min_idx, height) in
          let right_img := crop image (min_idx + 1, 0, width, height) in
          if (fst left_img.(size) <? 2) || (fst right_img.(size) <? 2) then None
          else Some (left_img, right_img)
    end.

(** ** The fallback text parser

    Recognised text is modelled as ASCII text, a list of characters.
    [str.strip], [str.splitlines], [str.lower] and the four regular
    expressions of [OcrParser] are embedded as scanners.  None of the
    patterns looks behind, so whether a pattern matches at a position
    depends on the text from that position on. *)

Module Text.

Definition isspace (c : ascii) : bool :=
  let n := N_of_ascii c in
  ((9 <=? n) && (n <=? 13) || (28 <=? n) && (n <=? 32))%N.

Definition isdigit (c : ascii) : bool :=
  let n := N_of_ascii c in ((48 <=? n) && (n <=? 57))%N.

(** The ASCII line boundaries of [str.splitlines]. *)
Definition islinebreak (c : ascii) : bool :=
  let n := N_of_ascii c in
  ((10 <=? n) && (n <=? 13) || (28 <=? n) && (n <=? 30))%N.

Definition lower_char (c : ascii) : ascii :=
  let n := N_of_ascii c in
  if ((65 <=? n) && (n <=? 90))%N then ascii_of_N (n + 32) else c.

Definition lower (s : list ascii) : list ascii := map lower_char s.

Definition isempty (s : list ascii) : bool :=
  match s with [] => true | _ :: _ => false end.

Fixpoint lstrip (s : list ascii) : list ascii :=
  match s with
  | c :: rest => if isspace c then lstrip rest else s
  | [] => []
  end.

Definition rstrip (s : list ascii) : list ascii := rev (lstrip (rev s)).

Definition strip (s : list ascii) : list ascii := rstrip (lstrip s).

(** [s.splitlines()], up to empty lines (the parser drops them). *)
Fixpoint splitlines_from (current : list ascii) (s : list ascii)
  : list (list ascii) :=
  match s with
  | [] => match current with [] => [] | _ => [rev current] end
  | c :: rest =>
      if islinebreak c then rev current :: splitlines_from [] rest
      else splitlines_from (c :: current) rest
  end.

Definition splitlines (s : list ascii) : list (list ascii) :=
  splitlines_from [] s.

Fixpoint startswith (prefix s : list ascii) : bool :=
  match prefix, s with
  | [], _ => true
  | p :: prefix', c :: s' => Ascii.eqb p c && startswith prefix' s'
  | _ :: _, [] => false
  end.

(** [needle in s]. *)
Fixpoint contains (needle s : list ascii) : bool :=
  startswith needle s
  || match s with
     | [] => false
     | _ :: rest => contains needle rest
     end.

(** [sep.join(parts)]. *)
Fixpoint join (sep : list ascii) (parts : list (list ascii)) : list ascii :=
  match parts with
  | [] => []
  | [p] => p
  | p :: rest => p ++ sep ++ join sep rest
  end.

(** Greedy [\d{1,n}]: the digits taken (none when the text does not start
    with a digit) and the rest of the text. *)
Fixpoint take_digits (n : nat) (s : list ascii) : list ascii * list ascii :=
  match n, s with
  | S n', c :: rest =>
      if isdigit c then
        let '(digits, rest') := take_digits n' rest in (c :: digits, rest')
      else ([], s)
  | _, _ => ([], s)
  end.

(** [int(digits)]. *)
Definition int_of_digits (digits : list ascii) : Z :=
  fold_left (fun acc c => 10 * acc + (Z.of_N (N_of_ascii c) - 48)) digits 0.

(** [pattern.finditer(s)] for a pattern given by its matcher at a
    position ([match_at] returns the captured value and the length of the
    match, which is never 0 here): leftmost matches, the next search
    starting where the previous match ended. *)
Fixpoint finditer {M : Type} (match_at : list ascii -> option (M * nat))
    (s : list ascii) (skip : nat) : list M :=
  match s with
  | [] => []
  | _ :: rest =>
      match skip with
      | S k => finditer match_at rest k
      | O =>
          match match_at s with
          | Some (m, len) => m :: finditer match_at rest (Nat.pred len)
          | None => finditer match_at rest 0
          end
      end
  end.

(** [pattern.search(s)]. *)
Definition search {M : Type} (match_at : list ascii -> option (M * nat))
    (s : list ascii) : option M :=
  hd_error (finditer match_at s 0).

End Text.

Module OcrParser.

Import Text.

(** [number_re = (\d{1,8})] at a position. *)
Definition number_at (s : list ascii) : option (Z * nat) :=
  let '(digits, _) := take_digits 8 s in
  match digits with
  | [] => None
  | _ => Some (int_of_digits digits, List.length digits)
  end.

(** [(\d{1,n})\s*word] at a position, case-insensitive ([items_re] with
    ["item"], [price_re] with ["orb"], each with its optional final [s]).  Taking fewer digits than the greedy
    choice leaves a digit where [\s*word] has to start, so the greedy
    choice is the only one that can match. *)
Definition labelled_number_at (n : nat) (word : string) (s : list ascii)
  : option (Z * nat) :=
  let '(digits, rest) := take_digits n s in
  match digits with
  | [] => None
  | _ =>
      let rest' := lstrip rest in
      if startswith (list_ascii_of_string word) (lower rest')
      then
        let plural :=
          match skipn (String.length word) (lower rest') with
          | c :: _ => if Ascii.eqb c "s" then 1%nat else 0%nat
          | [] => 0%nat
          end in
        Some (int_of_digits digits,
              (List.length s - List.length rest'
               + String.length word + plural)%nat)
      else None
  end.

Definition items_at : list ascii -> option (Z * nat) :=
  labelled_number_at 6 "item".

Definition price_at : list ascii -> option (Z * nat) :=
  labelled_number_at 8 "orb".

(** [\d{1,6}(?:[.,]\d{1,2})?], greedy: the integer digits, the fraction
    digits and the rest of the text. *)
Definition ratio_token (s : list ascii)
  : option (list ascii * list ascii * list ascii) :=
  let '(digits, rest) := take_digits 6 s in
  match digits with
  | [] => None
  | _ =>
      match rest with
      | sep :: more =>
          if Ascii.eqb sep "." || Ascii.eqb sep "," then
            let '(fraction, rest') := take_digits 2 more in
            match fraction with
            | [] => Some (digits, [], rest)
            | _ => Some (digits, fraction, rest')
            end
          else Some (digits, [], rest)
      | [] => Some (digits, [], rest)
      end
  end.

(** [float(token.replace(",", "."))] for a matched token: the decimal
    [digits.fraction], correctly rounded. *)
Definition float_of_token (digits fraction : list ascii) : float :=
  PrimFloat.div (of_int (int_of_digits (digits ++ fraction)))
                (of_int (10 ^ Z.of_nat (List.length fraction))).

(** [ratio_re] at a position: both sides as floats.  After the first
    token the pattern needs [\s*[:/]]; any shorter choice for the token
    leaves a digit, a dot or a comma at that place, so only the greedy
    choice can match. *)
Definition ratio_at (s : list ascii) : option (float * float * nat) :=
  match ratio_token s with
  | None => None
  | Some (digits1, fraction1, rest) =>
      match lstrip rest with
      | c :: rest' =>
          if Ascii.eqb c ":" || Ascii.eqb c "/" then
            match ratio_token (lstrip rest') with
            | None => None
            | Some (digits2, fraction2, rest'') =>
                Some (float_of_token digits1 fraction1,
                      float_of_token digits2 fraction2,
                      (List.length s - List.length rest'')%nat)
            end
          else None
      | [] => None
      end
  end.

Definition _collect_ratios (text : list ascii) : list (float * float) :=
  finditer ratio_at text 0.

(** [max(ratios, key=lambda pair: (pair[0], pair[1]))]: tuples compare on
    their first differing component, and the first maximum is kept. *)
Definition pair_gt (p q : float * float) : bool :=
  if ne (fst p) (fst q) then gt (fst p) (fst q)
  else if ne (snd p) (snd q) then gt (snd p) (snd q)
  else false.

Definition max_ratio (first : float * float) (others : list (float * float))
  : float * float :=
  fold_left (fun best p => if pair_gt p best then p else best) others first.

Fixpoint labelled_ratio (lines : list (list ascii)) : option (float * float) :=
  match lines with
  | [] => None
  | line :: rest =>
      if negb (contains (list_ascii_of_string "ratio") (lower line))
      then labelled_ratio rest
      else
        let found :=
          match search ratio_at line with
          | Some m => Some m
          | None =>
              match rest with
              | next :: _ => search ratio_at next
              | [] => None
              end
          end in
        match found with
        | Some m => Some m
        | None => labelled_ratio rest
        end
  end.

Definition _find_ratio (lines : list (list ascii))
  : option float * option float :=
  match labelled_ratio lines with
  | Some (num, den) => (Some num, Some den)
  | None =>
      match _collect_ratios (join (list_ascii_of_string " ") lines) with
      | first :: others =>
          let '(num, den) := max_ratio first others in (Some num, Some den)
      | [] => (None, None)
      end
  end.

Fixpoint _find_number_near_keyword (lines : list (list ascii)) (keyword : string)
  : option Z :=
  match lines with
  | [] => None
  | line :: rest =>
      if negb (contains (list_ascii_of_string keyword) (lower line))
      then _find_number_near_keyword rest keyword
      else
        let found :=
          match search number_at line with
          | Some m => Some m
          | None =>
              match rest with
              | next :: _ => search number_at next
              | [] => None
              end
          end in
        match found with
        | Some m => Some m
        | None => _find_number_near_keyword rest keyword
        end
  end.

Fixpoint first_match (at_ : list ascii -> option (Z * nat))
    (lines : list (list ascii)) : option Z :=
  match lines with
  | [] => None
  | line :: rest =>
      match search at_ line with
      | Some m => Some m
      | None => first_match at_ rest
      end
  end.

Definition _find_items (lines : list (list ascii)) : option Z :=
  match first_match items_at lines with
  | Some v => Some v
  | None => _find_number_near_keyword lines "item"
  end.

Definition _find_price (lines : list (list ascii)) : option Z :=
  match first_match price_at lines with
  | Some v => Some v
  | None => _find_number_near_keyword lines "price"
  end.

Definition _extract_numbers (text : list ascii) : list Z :=
  finditer number_at text 0.

(** [int(num)], [int(den)] for every ratio of the text; the floats are
    finite, so [int] returns. *)
Definition int_of_float (x : float) : Z :=
  match py_int x with Some v => v | None => 0 end.

Definition _extract_ratio_numbers (text : list ascii) : list Z :=
  flat_map (fun '(num, den) => [int_of_float num; int_of_float den])
           (_collect_ratios text).

(** [values.remove(target)], nothing on [ValueError]. *)
Fixpoint _remove_once (values : list Z) (target : Z) : list Z :=
  match values with
  | [] => []
  | v :: rest => if v =? target then rest else v :: _remove_once rest target
  end.

(** [min(values)] and [max(values)] on a non-empty list. *)
Definition py_min (first : Z) (others : list Z) : Z := fold_left Z.min others first.
Definition py_max (first : Z) (others : list Z) : Z := fold_left Z.max others first.

(** [ratio_num and ratio_den]: both present and non-zero. *)
Definition both_truthy (ratio_num ratio_den : option float) : bool :=
  match ratio_num, ratio_den with
  | Some num, Some den => truthy num && truthy den
  | _, _ => false
  end.

Definition is_none {A : Type} (o : option A) : bool :=
  match o with None => true | Some _ => false end.

(** The numbers of the text that are left after one occurrence of each
    ratio number has been removed. *)
Definition remaining_numbers (raw_text : list ascii) : list Z :=
  fold_left _remove_once (_extract_ratio_numbers raw_text)
            (_extract_numbers raw_text).

(** [[line.strip() for line in raw_text.splitlines() if line.strip()]]. *)
Definition stripped_lines (raw_text : list ascii) : list (list ascii) :=
  filter (fun line => negb (isempty line)) (map strip (splitlines raw_text)).

Definition parse (text : string) : ParseResult :=
  let raw_text := strip (list_ascii_of_string text) in
  match raw_text with
  | [] =>
      {| items := None; listing_price := None;
         ratio_num := None; ratio_den := None;
         raw_text := string_of_list_ascii raw_text;
         left_value := None; right_value := None |}
  | _ :: _ =>
      let lines := stripped_lines raw_text in
      let '(ratio_num, ratio_den) := _find_ratio lines in
      let items := _find_items lines in
      let price := _find_price lines in
      let '(items, price) :=
        if (is_none items || is_none price) && both_truthy ratio_num ratio_den
        then
          match remaining_numbers raw_text with
          | first :: others =>
              (match items with
               | None => Some (py_min first others)
               | Some _ => items
               end,
               match price with
               | None => Some (py_max first others)
               | Some _ => price
               end)
          | [] => (items, price)
          end
        else (items, price) in
      {| items := items; listing_price := price;
         ratio_num := ratio_num; ratio_den := ratio_den;
         raw_text := string_of_list_ascii raw_text;
         left_value := None; right_value := None |}
  end.

End OcrParser.

(** ** Ratio tokens

    [_parse_ratio_token] on a token matched by
    [\d{1,6}(?:[.,]\d{1,2})?], given as its digits and its fraction
    digits: the value, whether a decimal separator was explicit, and
    whether two decimals were inferred.  Such a token always converts,
    so the [ValueError] branches of the source are not reached.  All
    three callers of [_score_ratio] pass values obtained this way. *)
Definition _parse_ratio_token (token : list ascii * list ascii)
  : option float * bool * bool :=
  let '(digits, fraction) := token in
  match fraction with
  | _ :: _ => (Some (OcrParser.float_of_token digits fraction), true, false)
  | [] =>
      let value := Text.int_of_digits digits in
      if (value >=? 1000) && negb (value mod 100 =? 0)
      then (Some (PrimFloat.div (of_int value) 100), false, true)
      else (Some (of_int value), false, false)
  end.

(** The value of a token. *)
Definition token_value (token : list ascii * list ascii) : option float :=
  fst (fst (_parse_ratio_token token)).

(** A token matched by [\d{1,6}(?:[.,]\d{1,2})?], the pattern of both
    groups of [ratio_re] and of the search in [_ocr_ratio_side]: one to
    six digits, and at most two fraction digits. *)
Definition ratio_token (token : list ascii * list ascii) : Prop :=
  let '(digits, fraction) := token in
  Forall (fun c => Text.isdigit c = true) digits /\
  Forall (fun c => Text.isdigit c = true) fraction /\
  (1 <= List.length digits <= 6)%nat /\ (List.length fraction <= 2)%nat.

(** ** Correct rounding

    What the operations of binary64 compute on the values of ratio
    tokens, stated on the integers of [SpecFloat]. *)

(** The float assembled from a rounded mantissa of 53 bits, or of 54
    bits after a carry. *)
Definition finish (s : bool) (m1 e : Z) : spec_float :=
  if m1 =? 2 ^ 53 then S754_finite s (2 ^ 52)%positive (e + 1)
  else match m1 with
       | Zpos p => S754_finite s p e
       | _ => S754_nan
       end.

(** The location after one shift to the right. *)
Definition shifted_loc (m : Z) (l : location) : location :=
  loc_of_shr_record (shr_1 (shr_record_of_loc m l)).

(** [m] is the integer nearest to [N / D], the even one on a tie. *)
Definition nearest (N D m : Z) : Prop :=
  (2 * m - 1) * D <= 2 * N <= (2 * m + 1) * D /\
  (2 * N = (2 * m + 1) * D -> Z.even m = true) /\
  (2 * N = (2 * m - 1) * D -> Z.even m = true).

(** [S754_finite false m e], a normal double below [2^53], is the double
    nearest to [a / b], the one with the even mantissa on a tie (below a
    power of two the next double is half as far). *)
Definition is_rne (a b : Z) (m : positive) (e : Z) : Prop :=
  e <= 0 /\ 2 ^ 52 <= Zpos m < 2 ^ 53 /\
  2 * (a * 2 ^ (- e)) <= (2 * Zpos m + 1) * b /\
  (2 * (a * 2 ^ (- e)) = (2 * Zpos m + 1) * b -> Z.even (Zpos m) = true) /\
  (Zpos m = 2 ^ 52 -> (4 * Zpos m - 1) * b <= 4 * (a * 2 ^ (- e))) /\
  (Zpos m <> 2 ^ 52 ->
   (2 * Zpos m - 1) * b <= 2 * (a * 2 ^ (- e)) /\
   (2 * (a * 2 ^ (- e)) = (2 * Zpos m - 1) * b -> Z.even (Zpos m) = true)).

(** [x] is the double nearest to [M / 100]. *)
Definition hundredths (M : Z) (x : float) : Prop :=
  (M = 0 /\ Prim2SF x = S754_zero false) \/
  (0 < M /\ exists m e, Prim2SF x = S754_finite false m e /\ is_rne M 100 m e).

(** The four debounce fields, as one value. *)
Definition stability (st : MainWindow)
  : option ParseResult * Z * option Key * Z :=
  (st.(_last_good), st.(_bad_streak), st.(_pending_key), st.(_pending_count)).

(** ** Statements of the specification that are compared with the code *)

(** Spec section 3: "any mismatch or invalid reading resets [pendingCount]
    to 0/1 and increments [badStreak]". *)
Definition mismatch_or_invalid (st : MainWindow) (result : ParseResult) : bool :=
  negb (_is_valid_result result)
  || negb (key_eq_pending (key result) st.(_pending_key)).

Definition resets_count_and_increments_bad_streak
    (st : MainWindow) (result : ParseResult) : Prop :=
  mismatch_or_invalid st result = true ->
  let st' := step st (Reading result) in
  (st'.(_pending_count) = 0 \/ st'.(_pending_count) = 1) /\
  st'.(_bad_streak) = st.(_bad_streak) + 1.

(** Spec section 4.5: a reset trigger "clears
    [lastGood]/[pendingKey]/[pendingCount]". *)
Definition clears_stability (trigger : MainWindow -> MainWindow)
    (st : MainWindow) : Prop :=
  (trigger st).(_last_good) = None /\
  (trigger st).(_pending_key) = None /\
  (trigger st).(_pending_count) = 0.

(** The key and the count agree on whether something is pending. *)
Definition pending_consistent (st : MainWindow) : Prop :=
  (st.(_pending_key) = None <-> st.(_pending_count) = 0) /\
  0 <= st.(_pending_count).

(** Spec section 4.3, the scoring function in the specification's words:
    the last bonus is granted "if numerator <> denominator". *)
Definition score_as_specified (num den : float)
    (explicit_decimal inferred_decimal : bool) : Z :=
  (if gt num 0 && gt den 0 then 10 else 0)
  + (if lt (PrimFloat.abs (PrimFloat.sub num 1)) 1e-6
        || lt (PrimFloat.abs (PrimFloat.sub den 1)) 1e-6 then 4 else 0)
  + (if le num 10000 && le den 10000
     then 4 + (if le num 1000 && le den 1000 then 2 else 0) else 0)
  + (if explicit_decimal then 3 else 0)
  + (if inferred_decimal then 1 else 0)
  + (if ne num den then 1 else 0).

(** Spec section 4.6: with a usable ratio (both parts present, the
    denominator farther than 1e-9 from 0), "[expectedLeft = round(right *
    num/den)] when [right] present". *)
Definition expected_left_as_specified (left_input right_input : option Z)
    (result : ParseResult) : Prop :=
  forall num den r,
    result.(ratio_num) = Some num ->
    result.(ratio_den) = Some den ->
    has_ratio result = true ->
    right_input = Some r ->
    exists v expected_right,
      py_round (PrimFloat.mul (of_int r) (PrimFloat.div num den)) = Some v /\
      _compute_expected left_input right_input result
        = Returns (Some v, expected_right).

(** Spec section 4.6 and scenario D: in auto mode, with both inputs
    present and the last accepted inputs recorded, the direction goes to
    the side that changed less. *)
Definition less_changed_side (left_delta right_delta : Z) : option Mode :=
  if left_delta <? right_delta then Some from_left
  else if right_delta <? left_delta then Some from_right
  else None.

Definition resolves_toward_less_changed (st : MainWindow)
    (left_input right_input : Z) (ratio_num ratio_den : option float) : Prop :=
  forall last_left last_right side,
    st.(_calc_mode) = auto ->
    st.(_last_inputs) = Some (last_left, last_right) ->
    less_changed_side (Z.abs (left_input - last_left))
                      (Z.abs (right_input - last_right)) = Some side ->
    fst (_resolve_mode st (Some left_input) (Some right_input)
                       ratio_num ratio_den) = side.

(** The cells of the rectangle [x0 <= x < x1], [y0 <= y < y1], the
    foreground test of the counting loops, and the density of foreground
    cells in a rectangle. *)
Definition rectangle (x0 x1 y0 y1 : Z) : list (Z * Z) :=
  flat_map (fun y => map (fun x => (x, y)) (range x0 x1)) (range y0 y1).

Definition foreground (binary : Image) (cell : Z * Z) : bool :=
  binary.(getpixel) (fst cell) (snd cell) >? 0.

Definition density (binary : Image) (x0 x1 y0 y1 : Z) : float :=
  truediv (Z.of_nat (List.length (filter (foreground binary)
                                         (rectangle x0 x1 y0 y1))))
          ((x1 - x0) * (y1 - y0)).

(** Spec section 4.3, the shape classifier in the specification's words:
    the second density is taken over "the central vertical third of
    columns". *)
Definition classify_as_specified (image : Image) : option string :=
  let binary := _binarize_for_ratio image in
  let '(width, height) := binary.(size) in
  if (width <? 2) || (height <? 2) then None
  else decide_1_7 (top_ratio binary)
                  (density binary (width / 3) (width - width / 3) 0 height)
                  (upper_right_ratio binary).

(** [first_minimum counts columns m i]: column [i] is the first of
    [columns] whose count is the least one, [m]. *)
Definition first_minimum (counts : list Z) (columns : list Z) (m i : Z) : Prop :=
  exists before after,
    columns = before ++ i :: after /\
    nth (Z.to_nat i) counts 0 = m /\
    (forall x, In x before -> m < nth (Z.to_nat x) counts 0) /\
    (forall x, In x after -> m <= nth (Z.to_nat x) counts 0).

(** Spec section 4.3, the gap split: "if that minimum exceeds 15% of
    image height, reject". *)
Definition rejects_above_15_percent (image : Image) : Prop :=
  let binary := _binarize_for_ratio image in
  let '(width, height) := binary.(size) in
  forall min_count min_idx,
    gap_scan (column_counts binary)
             (range (int_scaled width 0.25) (int_scaled width 0.75))
      = (Some min_count, Some min_idx) ->
    100 * min_count > 15 * height ->
    _split_ratio_by_gap image = None.

(** ** Sample images *)

(** A 5 x 4 crop: three of the five top pixels lit, six of the twelve
    pixels of the three central columns lit. *)
Definition seven_like : Image :=
  of_rows [[255; 255; 255; 0; 0];
           [0; 0; 0; 255; 0];
           [0; 0; 0; 255; 0];
           [0; 0; 255; 255; 0]].

(** A 30 x 4 crop holding a full-height bar in columns 14 to 16. *)
Definition thin_bar : Image :=
  of_rows (repeat (repeat 0 14 ++ repeat 255 3 ++ repeat 0 13) 4).

(** An 8 x 12 image in which every column has exactly two lit pixels. *)
Definition two_lit_rows : Image :=
  of_rows (repeat (repeat 255 8) 2 ++ repeat (repeat 0 8) 10).

(** A dark 6 x 4 image and a dark 4 x 10 image. *)
Definition dark_6x4 : Image := of_rows (repeat (repeat 0 6) 4).

Definition dark_4x10 : Image := of_rows (repeat (repeat 0 4) 10).

(** Spec section 4.2, the fallback of the text parser: when items or
    price is still missing and a ratio was found, "assign the minimum
    remaining number to items and the maximum to price". *)
Definition fallback_as_specified (text : string) : Prop :=
  let raw_text := Text.strip (list_ascii_of_string text) in
  let lines := OcrParser.stripped_lines raw_text in
  forall num den first others,
    OcrParser._find_ratio lines = (Some num, Some den) ->
    OcrParser._find_items lines = None \/ OcrParser._find_price lines = None ->
    OcrParser.remaining_numbers raw_text = first :: others ->
    items (OcrParser.parse text) = Some (OcrParser.py_min first others) /\
    listing_price (OcrParser.parse text) = Some (OcrParser.py_max first others).

(** ** Sample texts *)

Definition newline : string := String (ascii_of_nat 10) EmptyString.

(** ["Ratio 3:7\n120 items\n45"], ["Ratio 3:7\n120 items"] and
    ["3:7 120 45"]. *)
Definition labelled_items_text : string :=
  ("Ratio 3:7" ++ newline ++ "120 items" ++ newline ++ "45")%string.

Definition scenario_A_text : string :=
  ("Ratio 3:7" ++ newline ++ "120 items")%string.

Definition unlabelled_text : string := "3:7 120 45".
(** * Properties of the stability machine *)

Ltac case_split :=
  match goal with
  | |- context [if ?c then _ else _] => destruct c eqn:?
  | |- context [match ?x with _ => _ end] => destruct x eqn:?
  end.

Lemma resolve_mode_stability st l r n d :
  stability (snd (_resolve_mode st l r n d)) = stability st.
Proof.
  unfold _resolve_mode.
  repeat (case_split; try reflexivity).
Qed.

Lemma handle_result_stability st result :
  stability (fst (_handle_result st result)) = stability (stabilize st result).
Proof.
  unfold _handle_result.
  set (s := stabilize st result).
  set (shown := if _is_valid_result result then result
                else match _last_good s with Some g => g | None => result end).
  destruct (has_ratio shown && _); [reflexivity|].
  destruct (_compute_expected _ _ shown) as [[el er]|]; [|reflexivity].
  pose proof (resolve_mode_stability s (left_value shown) (right_value shown)
                (ratio_num shown) (ratio_den shown)) as Hs.
  destruct (_resolve_mode s _ _ _ _) as [m s']. simpl in Hs |- *.
  rewrite <- Hs.
  repeat (case_split; try reflexivity).
Qed.

Lemma step_reading_fields st result :
  let st' := step st (Reading result) in
  let s := stabilize st result in
  _last_good st' = _last_good s /\ _bad_streak st' = _bad_streak s /\
  _pending_key st' = _pending_key s /\ _pending_count st' = _pending_count s.
Proof.
  pose proof (handle_result_stability st result) as H.
  unfold stability in H. simpl. injection H as -> -> -> ->. auto.
Qed.

Lemma is_valid_result_spec result :
  _is_valid_result result = true <->
  has_ratio result = true /\
  (left_value result <> None \/ right_value result <> None) /\
  (forall v, left_value result = Some v -> 0 < v) /\
  (forall v, right_value result = Some v -> 0 < v).
Proof.
  unfold _is_valid_result.
  destruct (has_ratio result); simpl.
  2:{ split; [discriminate | intros [H _]; discriminate]. }
  destruct (left_value result) as [l|], (right_value result) as [r|].
  - destruct (Z.leb_spec l 0), (Z.leb_spec r 0); split;
      try discriminate;
      try (intros (_ & _ & Hl & Hr);
           specialize (Hl _ eq_refl); specialize (Hr _ eq_refl); lia).
    intros _. repeat split; try (left; discriminate);
      intros v [= <-]; assumption.
  - destruct (Z.leb_spec l 0); split; try discriminate;
      try (intros (_ & _ & Hl & _); specialize (Hl _ eq_refl); lia).
    intros _. repeat split; try (left; discriminate);
      intros v [= <-] || discriminate; assumption.
  - destruct (Z.leb_spec r 0); split; try discriminate;
      try (intros (_ & _ & _ & Hr); specialize (Hr _ eq_refl); lia).
    intros _. repeat split; try (right; discriminate);
      intros v [= <-] || discriminate; assumption.
  - split; [discriminate|]. intros (_ & [H|H] & _); congruence.
Qed.

(** The debounce step on a valid reading whose key equals the pending key. *)
Lemma stabilize_match st result :
  _is_valid_result result = true ->
  key_eq_pending (key result) (_pending_key st) = true ->
  let st' := stabilize st result in
  _pending_key st' = _pending_key st /\
  _pending_count st' = _pending_count st + 1 /\
  _last_good st' =
    (if _pending_count st + 1 >=? 2 then Some result else _last_good st) /\
  _bad_streak st' =
    (if _pending_count st + 1 >=? 2 then 0 else _bad_streak st).
Proof.
  intros Hv Hk. unfold stabilize. rewrite Hv, Hk. simpl.
  destruct (_pending_count st + 1 >=? 2); simpl; auto.
Qed.

(** The debounce step on a valid reading with another key. *)
Lemma stabilize_mismatch st result :
  _is_valid_result result = true ->
  key_eq_pending (key result) (_pending_key st) = false ->
  let st' := stabilize st result in
  _pending_key st' = Some (key result) /\
  _pending_count st' = 1 /\
  _last_good st' = _last_good st /\
  _bad_streak st' = _bad_streak st.
Proof.
  intros Hv Hk. unfold stabilize. rewrite Hv, Hk. simpl. auto.
Qed.

(** The debounce step on an invalid reading. *)
Lemma stabilize_invalid st result :
  _is_valid_result result = false ->
  let st' := stabilize st result in
  _pending_key st' = None /\
  _pending_count st' = 0 /\
  _last_good st' = _last_good st /\
  _bad_streak st' = _bad_streak st + 1.
Proof.
  intros Hv. unfold stabilize. rewrite Hv. simpl. auto.
Qed.

(** One processed reading, seen through the four debounce fields. *)
Lemma step_reading_cases st result :
  let st' := step st (Reading result) in
  (_is_valid_result result = true /\
   key_eq_pending (key result) (_pending_key st) = true /\
   _pending_key st' = _pending_key st /\
   _pending_count st' = _pending_count st + 1 /\
   _last_good st' =
     (if _pending_count st + 1 >=? 2 then Some result else _last_good st) /\
   _bad_streak st' =
     (if _pending_count st + 1 >=? 2 then 0 else _bad_streak st))
  \/
  (_is_valid_result result = true /\
   key_eq_pending (key result) (_pending_key st) = false /\
   _pending_key st' = Some (key result) /\
   _pending_count st' = 1 /\
   _last_good st' = _last_good st /\
   _bad_streak st' = _bad_streak st)
  \/
  (_is_valid_result result = false /\
   _pending_key st' = None /\
   _pending_count st' = 0 /\
   _last_good st' = _last_good st /\
   _bad_streak st' = _bad_streak st + 1).
Proof.
  intros st'.
  destruct (step_reading_fields st result) as (Hg & Hb & Hk & Hc).
  fold st' in Hg, Hb, Hk, Hc. rewrite Hg, Hb, Hk, Hc.
  destruct (_is_valid_result result) eqn:Hv.
  - destruct (key_eq_pending (key result) (_pending_key st)) eqn:He.
    + left. pose proof (stabilize_match st result Hv He). simpl in *. tauto.
    + right; left. pose proof (stabilize_mismatch st result Hv He).
      simpl in *. tauto.
  - right; right. pose proof (stabilize_invalid st result Hv). simpl in *. tauto.
Qed.

(** C1 (debounce law).  A reading is valid iff it has a usable ratio, at
    least one box value is present and every present box value is positive.
    Processing a valid reading whose key equals the pending key increments
    the pending count; any other valid reading sets the pending key to its
    own key and the count to 1.  The last good reading is replaced by the
    current one exactly when the pending count has reached 2 after the
    step (the bad streak is then reset to 0) and is left alone below 2.
    Hence two consecutive identical valid readings commit the second, two
    valid readings with differing keys commit nothing, and an invalid
    reading never overwrites the last good one.  (A reading is "identical"
    to itself when its key compares equal to itself, which excludes a nan
    ratio; the count is non-negative in every state of a session.) *)
Theorem debounce_law (st : MainWindow) (R R' : ParseResult) :
  let st1 := step st (Reading R) in
  (_is_valid_result R = true <->
   has_ratio R = true /\
   (left_value R <> None \/ right_value R <> None) /\
   (forall v, left_value R = Some v -> 0 < v) /\
   (forall v, right_value R = Some v -> 0 < v)) /\
  (_is_valid_result R = true ->
   (key_eq_pending (key R) (_pending_key st) = true ->
    _pending_count st1 = _pending_count st + 1 /\
    _pending_key st1 = _pending_key st) /\
   (key_eq_pending (key R) (_pending_key st) = false ->
    _pending_key st1 = Some (key R) /\ _pending_count st1 = 1)) /\
  (2 <= _pending_count st1 -> _last_good st1 = Some R /\ _bad_streak st1 = 0) /\
  (_pending_count st1 < 2 -> _last_good st1 = _last_good st) /\
  (_is_valid_result R = true -> key_eq (key R) (key R) = true ->
   0 <= _pending_count st ->
   _last_good (run st [Reading R; Reading R]) = Some R) /\
  (_is_valid_result R = true -> _is_valid_result R' = true ->
   key_eq_pending (key R) (_pending_key st) = false ->
   key_eq (key R') (key R) = false ->
   _last_good (run st [Reading R; Reading R']) = _last_good st) /\
  (_is_valid_result R = false -> _last_good st1 = _last_good st).
Proof.
  intros st1.
  split; [apply is_valid_result_spec|].
  pose proof (step_reading_cases st R) as Hc. fold st1 in Hc.
  split; [|split; [|split; [|split; [|split]]]].
  - intros Hv. split; intros He;
      destruct Hc as [H|[H|H]]; destruct H as (Hv' & H); try congruence;
      destruct H as (He' & Hk & Hn & _); try congruence; auto.
  - intros Hge.
    destruct Hc as [(_ & _ & _ & Hn & Hg & Hb)|[(_ & _ & _ & Hn & _)|(_ & _ & Hn & _)]];
      try lia.
    rewrite Hn in Hge. apply Z.geb_le in Hge.
    rewrite Hge in Hg, Hb. auto.
  - intros Hlt.
    destruct Hc as [(_ & _ & _ & Hn & Hg & _)|[(_ & _ & _ & _ & Hg & _)|(_ & _ & _ & Hg & _)]];
      try assumption.
    rewrite Hn in Hlt.
    destruct (Z.geb_spec (_pending_count st + 1) 2); [lia | assumption].
  - intros Hv Hrefl Hnn.
    change (run st [Reading R; Reading R]) with (step st1 (Reading R)).
    assert (Hpend : key_eq_pending (key R) (_pending_key st1) = true
                    /\ 1 <= _pending_count st1).
    { destruct Hc as [(_ & He & Hk & Hn & _)|[(_ & _ & Hk & Hn & _)|(Hv' & _)]];
        try congruence.
      - rewrite Hk, Hn. split; [assumption | lia].
      - rewrite Hk, Hn. simpl. split; [assumption | lia]. }
    destruct Hpend as [He1 Hn1].
    destruct (step_reading_cases st1 R)
      as [(_ & _ & _ & _ & Hg & _)|[(_ & He & _)|(Hv' & _)]]; try congruence.
    rewrite Hg. destruct (Z.geb_spec (_pending_count st1 + 1) 2); [reflexivity | lia].
  - intros Hv Hv' He Hne.
    change (run st [Reading R; Reading R']) with (step st1 (Reading R')).
    destruct Hc as [(_ & He' & _)|[(_ & _ & Hk & Hn & Hg & _)|(Hv0 & _)]];
      try congruence.
    destruct (step_reading_cases st1 R')
      as [(_ & He' & _)|[(_ & _ & _ & _ & Hg' & _)|(Hv0 & _)]]; try congruence.
    rewrite Hk in He'. cbn [key_eq_pending] in He'. congruence.
  - intros Hv.
    destruct Hc as [(Hv' & _)|[(Hv' & _)|(_ & _ & _ & Hg & _)]]; congruence.
Qed.

(** Two sample readings: ratio 3:7 with boxes 50/80, and with boxes 52/80. *)
Lemma debounce_law_witness :
  _last_good (run init [Reading (reading_of 3 7 (Some 50) (Some 80));
                        Reading (reading_of 3 7 (Some 50) (Some 80))])
    = Some (reading_of 3 7 (Some 50) (Some 80)) /\
  _last_good (run init [Reading (reading_of 3 7 (Some 50) (Some 80));
                        Reading (reading_of 3 7 (Some 52) (Some 80))])
    = None /\
  _last_good (step init (Reading (reading_of 3 0 (Some 50) (Some 80)))) = None.
Proof.
  destruct (debounce_law init (reading_of 3 7 (Some 50) (Some 80))
                         (reading_of 3 7 (Some 52) (Some 80)))
    as (_ & _ & _ & _ & Hsame & Hdiff & _).
  destruct (debounce_law init (reading_of 3 0 (Some 50) (Some 80))
                         (reading_of 3 0 (Some 50) (Some 80)))
    as (_ & _ & _ & _ & _ & _ & Hbad).
  split; [|split].
  - apply Hsame; [vm_compute; reflexivity | vm_compute; reflexivity | simpl; lia].
  - apply Hdiff; vm_compute; reflexivity.
  - apply Hbad. vm_compute. reflexivity.
Defined.

(** C4, as the specification states it, fails on the first valid reading
    of a session: its key differs from the (empty) pending key, the count
    becomes 1, and the bad streak stays 0. *)
Lemma mismatch_keeps_bad_streak :
  ~ resets_count_and_increments_bad_streak
      init (reading_of 3 7 (Some 50) (Some 80)).
Proof.
  intros H.
  assert (Hm : mismatch_or_invalid init (reading_of 3 7 (Some 50) (Some 80)) = true)
    by (vm_compute; reflexivity).
  destruct (H Hm) as [_ Hb].
  vm_compute in Hb. discriminate.
Qed.

(** C4 (amended).  For every processed reading: the pending count becomes
    count + 1 when the reading is valid and its key equals the pending
    key, which stays (the bad streak is then kept below a count of 2 and
    reset to 0 from 2 on); a valid reading with another key sets the
    pending key to that key and the count to 1 and leaves the bad streak
    unchanged; an invalid reading clears the pending key, sets the count
    to 0 and increments the bad streak. *)
Theorem pending_count_law (st : MainWindow) (result : ParseResult) :
  let st' := step st (Reading result) in
  (_is_valid_result result = true ->
   key_eq_pending (key result) (_pending_key st) = true ->
   _pending_count st' = _pending_count st + 1 /\
   _pending_key st' = _pending_key st /\
   (_pending_count st' < 2 -> _bad_streak st' = _bad_streak st) /\
   (2 <= _pending_count st' -> _bad_streak st' = 0)) /\
  (_is_valid_result result = true ->
   key_eq_pending (key result) (_pending_key st) = false ->
   _pending_key st' = Some (key result) /\
   _pending_count st' = 1 /\ _bad_streak st' = _bad_streak st) /\
  (_is_valid_result result = false ->
   _pending_key st' = None /\
   _pending_count st' = 0 /\ _bad_streak st' = _bad_streak st + 1).
Proof.
  intros st'.
  pose proof (step_reading_cases st result) as Hc. fold st' in Hc.
  split; [|split].
  - intros Hv He.
    destruct Hc as [(_ & _ & Hk & Hn & _ & Hb)|[(_ & He' & _)|(Hv' & _)]];
      try congruence.
    rewrite Hn, Hb.
    destruct (Z.geb_spec (_pending_count st + 1) 2); repeat split; auto; lia.
  - intros Hv He.
    destruct Hc as [(_ & He' & _)|[(_ & _ & Hk & Hn & _ & Hb)|(Hv' & _)]];
      try congruence. auto.
  - intros Hv.
    destruct Hc as [(Hv' & _)|[(Hv' & _)|(_ & Hk & Hn & _ & Hb)]];
      try congruence. auto.
Qed.

Lemma pending_count_law_witness :
  let R := reading_of 3 7 (Some 50) (Some 80) in
  let B := reading_of 3 0 (Some 50) (Some 80) in
  (_pending_key (step init (Reading R)) = Some (key R) /\
   _pending_count (step init (Reading R)) = 1 /\
   _bad_streak (step init (Reading R)) = 0) /\
  (_pending_count (step (step init (Reading R)) (Reading R)) = 2 /\
   _pending_key (step (step init (Reading R)) (Reading R)) = Some (key R) /\
   _bad_streak (step (step init (Reading R)) (Reading R)) = 0) /\
  (_pending_key (step init (Reading B)) = None /\
   _pending_count (step init (Reading B)) = 0 /\
   _bad_streak (step init (Reading B)) = 1).
Proof.
  intros R B.
  destruct (pending_count_law init R) as (_ & Hmis & _).
  destruct (pending_count_law (step init (Reading R)) R) as (Hmatch & _ & _).
  destruct (pending_count_law init B) as (_ & _ & Hbad).
  split; [|split].
  - apply Hmis; vm_compute; reflexivity.
  - destruct Hmatch as (Hn & Hk & _ & Hb); try (vm_compute; reflexivity).
    split; [exact Hn|]. split; [|apply Hb; rewrite Hn; vm_compute; discriminate].
    rewrite Hk. apply Hmis; vm_compute; reflexivity.
  - apply Hbad. vm_compute. reflexivity.
Defined.

(** ** Reset triggers *)

Lemma set_region_stability st region :
  _last_good (_set_region st region) = None /\
  _pending_key (_set_region st region) = None /\
  _pending_count (_set_region st region) = 0 /\
  _bad_streak (_set_region st region) = _bad_streak st /\
  _last_inputs (_set_region st region) = _last_inputs st.
Proof.
  unfold _set_region.
  destruct (_select_target st) as [t|]; [|simpl; auto].
  destruct (String.eqb t "ratio"); [simpl; auto|].
  destruct (String.eqb t "left"); [simpl; auto|].
  destruct (String.eqb t "right"); simpl; auto.
Qed.

Lemma change_mode_stability st index :
  _last_good (_change_mode st index) = _last_good st /\
  _bad_streak (_change_mode st index) = _bad_streak st /\
  _pending_key (_change_mode st index) = _pending_key st /\
  _pending_count (_change_mode st index) = _pending_count st /\
  _last_inputs (_change_mode st index) = None.
Proof.
  unfold _change_mode.
  destruct (index =? 1); [repeat split; reflexivity|].
  destruct (index =? 2); repeat split; reflexivity.
Qed.

(** C3, as the specification states it, fails for the mode change: after
    two identical readings have been committed, changing the mode leaves
    the committed reading in place. *)
Lemma change_mode_keeps_last_good :
  ~ clears_stability (fun st => _change_mode st 1)
      (run init [Reading (reading_of 3 7 (Some 50) (Some 80));
                 Reading (reading_of 3 7 (Some 50) (Some 80))]).
Proof.
  intros (Hg & _). vm_compute in Hg. discriminate.
Qed.

(** C3 (amended).  Region re-selection and the side-swap toggle clear the
    last good reading, the pending key and the pending count (the swap
    toggle also clears the last accepted inputs); a mode change clears the
    last accepted inputs only and leaves the last good reading, the
    pending key, the pending count and the bad streak as they were. *)
Theorem reset_triggers (st : MainWindow) (target : string) (region : Region)
    (checked : bool) (index : Z) :
  clears_stability (fun s => _set_region s region) st /\
  clears_stability (fun s => reselect_region s target region) st /\
  clears_stability (fun s => _toggle_swap s checked) st /\
  _last_inputs (_toggle_swap st checked) = None /\
  _last_inputs (_change_mode st index) = None /\
  _last_good (_change_mode st index) = _last_good st /\
  _pending_key (_change_mode st index) = _pending_key st /\
  _pending_count (_change_mode st index) = _pending_count st /\
  _bad_streak (_change_mode st index) = _bad_streak st.
Proof.
  destruct (change_mode_stability st index) as (Hg & Hb & Hk & Hc & Hi).
  unfold clears_stability.
  pose proof (set_region_stability st region) as H1.
  pose proof (set_region_stability (set_select_target st (Some target)) region) as H2.
  unfold reselect_region.
  repeat split; try tauto; try reflexivity; assumption.
Qed.

(** ** The pending key and the pending count agree *)

Lemma pending_consistent_step st ev :
  pending_consistent st -> pending_consistent (step st ev).
Proof.
  unfold pending_consistent. intros [Hiff Hnn].
  destruct ev as [result|target region|checked|index].
  - destruct (step_reading_cases st result)
      as [(_ & He & Hk & Hn & _)|[(_ & _ & Hk & Hn & _)|(_ & Hk & Hn & _)]];
      rewrite Hk, Hn.
    + destruct (_pending_key st) as [k|]; [|discriminate].
      split; [split; [discriminate | lia] | lia].
    + split; [split; [discriminate | lia] | lia].
    + split; [tauto | lia].
  - cbn [step]. unfold reselect_region.
    destruct (set_region_stability (set_select_target st (Some target)) region)
      as (_ & -> & -> & _).
    split; [tauto | lia].
  - cbn. split; [tauto | lia].
  - destruct (change_mode_stability st index) as (_ & _ & Hk & Hc & _).
    cbn [step]. rewrite Hk, Hc. tauto.
Qed.

Lemma pending_consistent_run evs : forall st,
  pending_consistent st -> pending_consistent (run st evs).
Proof.
  induction evs as [|ev evs IH]; intros st H; [exact H|].
  apply IH, pending_consistent_step, H.
Qed.

Lemma pending_consistent_startup config : pending_consistent (startup config).
Proof.
  destruct config; unfold pending_consistent; simpl; split; (tauto || lia).
Qed.

(** C10.  In every state reached from start-up by processed readings,
    region re-selections, swap toggles (and mode changes), the pending
    key is [None] iff the pending count is 0; a valid reading always
    leaves a pending key (its own key, or the equal key already pending)
    and a pending count of at least 1. *)
Theorem pending_key_iff_count (config : option Config) (evs : list Event) :
  let st := run (startup config) evs in
  (_pending_key st = None <-> _pending_count st = 0) /\
  (forall result, _is_valid_result result = true ->
     (exists k, _pending_key (step st (Reading result)) = Some k /\
                (k = key result \/ key_eq (key result) k = true)) /\
     1 <= _pending_count (step st (Reading result))).
Proof.
  intros st.
  assert (Hst : pending_consistent st)
    by apply pending_consistent_run, pending_consistent_startup.
  destruct Hst as [Hiff Hnn].
  split; [exact Hiff|].
  intros result Hv.
  destruct (step_reading_cases st result)
    as [(_ & He & Hk & Hn & _)|[(_ & _ & Hk & Hn & _)|(Hv' & _)]];
    try congruence; rewrite Hk, Hn.
  - destruct (_pending_key st) as [k|]; [|discriminate].
    split; [exists k; auto | lia].
  - split; [exists (key result); auto | lia].
Qed.

Lemma pending_key_iff_count_witness :
  let R := reading_of 3 7 (Some 50) (Some 80) in
  let st := run (startup None)
                [Reading R; SwapToggled true; Reading R; Reading R] in
  (exists k, _pending_key (step st (Reading R)) = Some k /\
             (k = key R \/ key_eq (key R) k = true)) /\
  1 <= _pending_count (step st (Reading R)).
Proof.
  intros R st.
  destruct (pending_key_iff_count None
              [Reading R; SwapToggled true; Reading R; Reading R]) as [_ H].
  apply H. vm_compute. reflexivity.
Defined.

(** * The direction resolver *)

(** C2, as the specification states it, fails on its own worked example:
    after a cycle with boxes 50/80 and a cycle with boxes 52/80 the
    resolved direction is [from_left], whatever the ratio had seeded
    (7:3 seeds [from_right], 3:7 seeds [from_left]). *)
Lemma scenario_D_resolves_from_left :
  (forall shown,
     snd (_handle_result
            (fst (_handle_result init (reading_of 7 3 (Some 50) (Some 80))))
            (reading_of 7 3 (Some 52) (Some 80))) = Returns shown ->
     mode shown <> from_right) /\
  (exists shown,
     snd (_handle_result
            (fst (_handle_result init (reading_of 7 3 (Some 50) (Some 80))))
            (reading_of 7 3 (Some 52) (Some 80))) = Returns shown /\
     mode shown = from_left) /\
  (exists shown,
     snd (_handle_result
            (fst (_handle_result init (reading_of 3 7 (Some 50) (Some 80))))
            (reading_of 3 7 (Some 52) (Some 80))) = Returns shown /\
     mode shown = from_left) /\
  ~ resolves_toward_less_changed
      (set_last_inputs init (Some (50, 80))) 52 80 (Some 7%float) (Some 3%float).
Proof.
  split; [|split; [|split]].
  - intros shown H. vm_compute in H. injection H as <-. discriminate.
  - eexists. split; vm_compute; reflexivity.
  - eexists. split; vm_compute; reflexivity.
  - intros H.
    specialize (H 50 80 from_right eq_refl eq_refl eq_refl).
    vm_compute in H. discriminate.
Qed.

(** C2 (amended).  In auto mode, when both box values are present, the
    last accepted inputs are recorded and the two deltas are not both
    zero, the resolver returns (and stores) [from_left] when the left
    value changed at least as much as the right one and [from_right]
    otherwise: the side that changed more becomes the reference.  For two
    cycles with left going 50 to 52 and right staying 80 the direction is
    [from_left]. *)
Theorem resolve_mode_by_delta (st : MainWindow) (left_input right_input : Z)
    (ratio_num ratio_den : option float) (last_left last_right : Z) :
  _calc_mode st = auto ->
  _last_inputs st = Some (last_left, last_right) ->
  ~ (Z.abs (left_input - last_left) = 0 /\ Z.abs (right_input - last_right) = 0) ->
  let resolved :=
    _resolve_mode st (Some left_input) (Some right_input) ratio_num ratio_den in
  (Z.abs (right_input - last_right) <= Z.abs (left_input - last_left) ->
   fst resolved = from_left /\ _auto_direction (snd resolved) = from_left) /\
  (Z.abs (left_input - last_left) < Z.abs (right_input - last_right) ->
   fst resolved = from_right /\ _auto_direction (snd resolved) = from_right).
Proof.
  intros Hm Hl Hnz resolved. subst resolved.
  unfold _resolve_mode. rewrite Hm. cbn [Mode_eqb negb].
  set (seeded := match ratio_num with Some _ => _ | None => st end).
  assert (Hs : _last_inputs seeded = Some (last_left, last_right)).
  { subst seeded. rewrite <- Hl.
    repeat (case_split; try reflexivity). }
  rewrite Hs.
  destruct ((Z.abs (left_input - last_left) =? 0)
            && (Z.abs (right_input - last_right) =? 0)) eqn:Hz.
  { apply andb_true_iff in Hz. rewrite !Z.eqb_eq in Hz. contradiction. }
  destruct (Z.geb_spec (Z.abs (left_input - last_left))
                       (Z.abs (right_input - last_right)));
    split; intros; try lia; split; reflexivity.
Qed.

Lemma resolve_mode_by_delta_witness :
  fst (_resolve_mode (set_last_inputs init (Some (50, 80)))
                     (Some 52) (Some 80) (Some 7%float) (Some 3%float))
    = from_left.
Proof.
  apply (resolve_mode_by_delta (set_last_inputs init (Some (50, 80)))
           52 80 (Some 7%float) (Some 3%float) 50 80);
    [reflexivity | reflexivity | vm_compute; intros [H _]; discriminate
    | vm_compute; discriminate].
Defined.

(** * Expected values *)

(** C5, as the specification states it, fails for a numerator of 0: the
    ratio 0:7 is usable in the specification's sense (the denominator is
    away from 0) and [round(100 * 0/7)] is 0, but the code returns
    [None] for both expected values. *)
Lemma zero_numerator_gives_no_expected :
  ~ expected_left_as_specified None (Some 100)
      (reading_of 0 7 None (Some 100)).
Proof.
  intros H.
  destruct (H 0%float 7%float 100 eq_refl eq_refl eq_refl eq_refl)
    as (v & er & _ & Hc).
  vm_compute in Hc. discriminate.
Qed.

(** With a usable ratio the two expected values are computed in turn. *)
Lemma compute_expected_usable left_input right_input result num den :
  ratio_num result = Some num -> ratio_den result = Some den ->
  has_ratio result = true -> lt (PrimFloat.abs num) 1e-9 = false ->
  _compute_expected left_input right_input result =
    (expected_left <-
       match right_input with
       | Some r =>
           match py_round (PrimFloat.mul (of_int r) (PrimFloat.div num den)) with
           | Some v => Returns (Some v)
           | None => Raises
           end
       | None => Returns None
       end ;;
     expected_right <-
       match left_input with
       | Some l =>
           match py_round (PrimFloat.mul (of_int l) (PrimFloat.div den num)) with
           | Some v => Returns (Some v)
           | None => Raises
           end
       | None => Returns None
       end ;;
     Returns (expected_left, expected_right)).
Proof.
  intros Hn Hd Hr Hz. unfold _compute_expected.
  rewrite Hn, Hd, Hr, Hz. reflexivity.
Qed.

(** C5 (amended).  Both expected values are [None] when the ratio is
    unusable: a part is missing, the denominator is within 1e-9 of 0, or
    the numerator is strictly within 1e-9 of 0.  Otherwise the expected
    left value is [round(right * (num / den))] when the right value is
    present and the expected right value is [round(left * (den / num))]
    when the left value is present, an absent input giving [None].  With
    right = 100 and ratio 3:7 the expected left value is 43; a
    denominator of 0 gives no ratio and no expected value. *)
Theorem compute_expected_law (left_input right_input : option Z)
    (result : ParseResult) :
  let computed := _compute_expected left_input right_input result in
  (has_ratio result = false -> computed = Returns (None, None)) /\
  (ratio_num result = None \/ ratio_den result = None -> has_ratio result = false) /\
  (forall den, ratio_den result = Some den ->
     gt (PrimFloat.abs den) 1e-9 = false -> has_ratio result = false) /\
  (forall num, ratio_num result = Some num ->
     lt (PrimFloat.abs num) 1e-9 = true -> computed = Returns (None, None)) /\
  (forall num den,
     ratio_num result = Some num -> ratio_den result = Some den ->
     has_ratio result = true -> lt (PrimFloat.abs num) 1e-9 = false ->
     (forall r v,
        right_input = Some r ->
        py_round (PrimFloat.mul (of_int r) (PrimFloat.div num den)) = Some v ->
        (left_input = None -> computed = Returns (Some v, None)) /\
        (forall l w,
           left_input = Some l ->
           py_round (PrimFloat.mul (of_int l) (PrimFloat.div den num)) = Some w ->
           computed = Returns (Some v, Some w))) /\
     (forall l w,
        left_input = Some l ->
        py_round (PrimFloat.mul (of_int l) (PrimFloat.div den num)) = Some w ->
        right_input = None -> computed = Returns (None, Some w)) /\
     (left_input = None -> right_input = None ->
      computed = Returns (None, None))) /\
  _compute_expected None (Some 100) (reading_of 3 7 None (Some 100))
    = Returns (Some 43, None) /\
  has_ratio (reading_of 3 0 (Some 50) (Some 100)) = false /\
  _compute_expected (Some 50) (Some 100) (reading_of 3 0 (Some 50) (Some 100))
    = Returns (None, None).
Proof.
  intros computed. subst computed.
  split; [|split; [|split; [|split; [|split; [|split; [|split]]]]]];
    try (vm_compute; reflexivity).
  - unfold _compute_expected. intros ->.
    destruct (ratio_num result); reflexivity.
  - unfold has_ratio. intros [-> | ->]; [reflexivity|].
    destruct (ratio_num result); reflexivity.
  - unfold has_ratio. intros den -> H.
    destruct (ratio_num result); [exact H | reflexivity].
  - unfold _compute_expected. intros num -> H.
    rewrite H, orb_true_r. reflexivity.
  - intros num den Hn Hd Hr Hz.
    rewrite (compute_expected_usable _ _ _ _ _ Hn Hd Hr Hz).
    split; [|split].
    + intros r v -> Hv. rewrite Hv. split.
      * intros ->. reflexivity.
      * intros l w -> Hw. rewrite Hw. reflexivity.
    + intros l w -> Hw ->. rewrite Hw. reflexivity.
    + intros -> ->. reflexivity.
Qed.

Lemma compute_expected_law_witness :
  _compute_expected (Some 50) (Some 80) (reading_of 3 7 (Some 50) (Some 80))
    = Returns (Some 34, Some 117) /\
  _compute_expected (Some 50) (Some 80) (reading_of 0 7 (Some 50) (Some 80))
    = Returns (None, None).
Proof.
  destruct (compute_expected_law (Some 50) (Some 80)
              (reading_of 3 7 (Some 50) (Some 80)))
    as (_ & _ & _ & _ & H & _).
  destruct (compute_expected_law (Some 50) (Some 80)
              (reading_of 0 7 (Some 50) (Some 80)))
    as (_ & _ & _ & Hz & _).
  split.
  - destruct (H 3%float 7%float eq_refl eq_refl) as (Hr & _);
      [vm_compute; reflexivity | vm_compute; reflexivity |].
    destruct (Hr 80 34 eq_refl) as (_ & Hboth); [vm_compute; reflexivity|].
    apply (Hboth 50 117 eq_refl). vm_compute. reflexivity.
  - apply (Hz 0%float eq_refl). vm_compute. reflexivity.
Defined.

(** * Ratio scoring *)

(** A float that is at most 1000 is at most 10000. *)
Lemma le_1000_10000 (x : float) : le x 1000 = true -> le x 10000 = true.
Proof.
  unfold le. rewrite !leb_spec. unfold SFleb, SFcompare.
  change (Prim2SF 1000) with (S754_finite false 8796093022208000 (-43)).
  change (Prim2SF 10000) with (S754_finite false 5497558138880000 (-39)).
  destruct (Prim2SF x) as [ | [|] | | [|] m e]; try reflexivity; try discriminate.
  destruct (Z.compare_spec e (-43)) as [-> | Hlt | Hgt]; try discriminate; intros _.
  - reflexivity.
  - destruct (Z.compare_spec e (-39)); try lia; reflexivity.
Qed.

(** The score as a sum of its bonuses; an explicit decimal is worth 3. *)
Lemma score_ratio_sum (num den : float) (explicit_decimal inferred_decimal : bool) :
  _score_ratio num den explicit_decimal inferred_decimal =
    (if gt num 0 && gt den 0 then 10 else 0)
    + (if lt (PrimFloat.abs (PrimFloat.sub num 1)) 1e-6
          || lt (PrimFloat.abs (PrimFloat.sub den 1)) 1e-6 then 4 else 0)
    + (if le num 10000 && le den 10000
       then 4 + (if le num 1000 && le den 1000 then 2 else 0) else 0)
    + (if explicit_decimal then 3 else 0)
    + (if inferred_decimal then 1 else 0)
    + (if gt (PrimFloat.abs (PrimFloat.sub num den)) 1e-6 then 1 else 0) /\
  _score_ratio num den true inferred_decimal
    = _score_ratio num den false inferred_decimal + 3.
Proof.
  assert (Hnest : (if le num 10000 && le den 10000
                   then 4 + (if le num 1000 && le den 1000 then 2 else 0) else 0)
                  = (if le num 10000 && le den 10000 then 4 else 0)
                    + (if le num 1000 && le den 1000 then 2 else 0)).
  { pose proof (le_1000_10000 num) as Hn. pose proof (le_1000_10000 den) as Hd.
    destruct (le num 1000); destruct (le den 1000);
      try rewrite (Hn eq_refl); try rewrite (Hd eq_refl);
      destruct (le num 10000); destruct (le den 10000); reflexivity. }
  unfold _score_ratio.
  split.
  - rewrite Hnest.
    destruct (gt num 0 && gt den 0),
             (lt (PrimFloat.abs (PrimFloat.sub num 1)) 1e-6
              || lt (PrimFloat.abs (PrimFloat.sub den 1)) 1e-6),
             (le num 10000 && le den 10000), (le num 1000 && le den 1000),
             explicit_decimal, inferred_decimal,
             (gt (PrimFloat.abs (PrimFloat.sub num den)) 1e-6); reflexivity.
  - destruct (gt num 0 && gt den 0),
             (lt (PrimFloat.abs (PrimFloat.sub num 1)) 1e-6
              || lt (PrimFloat.abs (PrimFloat.sub den 1)) 1e-6),
             (le num 10000 && le den 10000), (le num 1000 && le den 1000),
             inferred_decimal,
             (gt (PrimFloat.abs (PrimFloat.sub num den)) 1e-6); reflexivity.
Qed.

Lemma SFsub_diag s m e :
  SFsub prec emax (S754_finite s m e) (S754_finite s m e) = S754_zero false.
Proof.
  assert (Ha : shl_align m e e = (m, e)).
  { unfold shl_align. rewrite Z.sub_diag. reflexivity. }
  unfold SFsub. rewrite Z.min_id, Ha. cbn [fst]. rewrite Z.sub_diag. reflexivity.
Qed.

Lemma SFeqb_finite s1 m1 e1 s2 m2 e2 :
  SFeqb (S754_finite s1 m1 e1) (S754_finite s2 m2 e2) = true ->
  s1 = s2 /\ m1 = m2 /\ e1 = e2.
Proof.
  unfold SFeqb, SFcompare.
  destruct s1, s2; try discriminate;
    destruct (Z.compare_spec e1 e2) as [->|?|?]; try discriminate;
    destruct (Pos.compare_cont Eq m1 m2) eqn:Hm; try discriminate;
    apply Pos.compare_eq in Hm; subst; auto.
Qed.

(** Equal sides are never more than 1e-6 apart. *)
Lemma equal_sides_not_apart (x y : float) :
  eq x y = true -> gt (PrimFloat.abs (PrimFloat.sub x y)) 1e-6 = false.
Proof.
  unfold eq, gt.
  rewrite FloatAxioms.eqb_spec, FloatAxioms.ltb_spec, FloatAxioms.abs_spec,
    FloatAxioms.sub_spec.
  destruct (Prim2SF x) as [sx|sx| |sx mx ex] eqn:Hx;
    destruct (Prim2SF y) as [sy|sy| |sy my ey] eqn:Hy;
    try (destruct sx); try (destruct sy);
    try (intros H; discriminate H); try (intros _; reflexivity);
    intros H; apply SFeqb_finite in H; destruct H as (_ & -> & ->);
    unfold SF64sub; rewrite SFsub_diag; reflexivity.
Qed.

(** ** Binary64 arithmetic on exact integers *)

Lemma digits2_pos_size p : digits2_pos p = Pos.size p.
Proof. induction p; cbn; congruence. Qed.

Lemma digits2_bounds p :
  2 ^ (Zpos (digits2_pos p) - 1) <= Zpos p < 2 ^ Zpos (digits2_pos p).
Proof.
  rewrite digits2_pos_size. split.
  - pose proof (Pos.size_le p) as H.
    assert (H' : 2 ^ Zpos (Pos.size p) <= 2 * Zpos p).
    { change (2 * Zpos p) with (Zpos p~0). rewrite <- Pos2Z.inj_pow. exact H. }
    replace (Zpos (Pos.size p)) with (Z.succ (Zpos (Pos.size p) - 1)) in H' by lia.
    rewrite Z.pow_succ_r in H' by lia. lia.
  - pose proof (Pos.size_gt p) as H.
    rewrite <- Pos2Z.inj_pow. exact H.
Qed.

Lemma digits2_unique p d :
  2 ^ (d - 1) <= Zpos p < 2 ^ d -> Zpos (digits2_pos p) = d.
Proof.
  intros [Hl Hu]. pose proof (digits2_bounds p) as [Hl' Hu'].
  set (d' := Zpos (digits2_pos p)) in *.
  assert (0 < d) by (destruct d; try lia; cbn in Hu; lia).
  destruct (Z.lt_trichotomy d d') as [Hlt|[Heq|Hgt]]; [|auto|].
  - assert (2 ^ d <= 2 ^ (d' - 1)) by (apply Z.pow_le_mono_r; lia). lia.
  - assert (2 ^ d' <= 2 ^ (d - 1)) by (apply Z.pow_le_mono_r; lia). lia.
Qed.

Lemma iter_xO p k : Zpos (Pos.iter xO p k) = Zpos p * 2 ^ Zpos k.
Proof.
  induction k using Pos.peano_ind.
  - cbn. lia.
  - rewrite Pos.iter_succ, Pos2Z.inj_succ, Z.pow_succ_r by lia.
    rewrite Pos2Z.inj_xO, IHk. lia.
Qed.

Lemma fexp_normal d : -1021 <= d -> fexp prec emax d = d - 53.
Proof. unfold fexp, emin, prec, emax. lia. Qed.

Lemma shr_fexp_53 m e l :
  Zpos (digits2_pos m) = 53 -> -1074 <= e ->
  shr_fexp prec emax (Zpos m) e l = (shr_record_of_loc (Zpos m) l, e).
Proof.
  intros Hd He. unfold shr_fexp. cbn [Zdigits2]. rewrite Hd, fexp_normal by lia.
  replace (53 + e - 53 - e) with 0 by lia. reflexivity.
Qed.

Lemma shr_fexp_54 m e l :
  Zpos (digits2_pos m) = 54 -> -1075 <= e ->
  shr_fexp prec emax (Zpos m) e l = (shr_1 (shr_record_of_loc (Zpos m) l), e + 1).
Proof.
  intros Hd He. unfold shr_fexp. cbn [Zdigits2]. rewrite Hd, fexp_normal by lia.
  replace (54 + e - 53 - e) with 1 by lia. reflexivity.
Qed.

Lemma shr_record_of_loc_m m l : shr_m (shr_record_of_loc m l) = m.
Proof. destruct l as [|[]]; reflexivity. Qed.

Lemma loc_of_shr_record_of_loc m l :
  loc_of_shr_record (shr_record_of_loc m l) = l.
Proof. destruct l as [|[]]; reflexivity. Qed.

Lemma second_pass s m1 e :
  2 ^ 52 <= m1 <= 2 ^ 53 -> -1074 <= e <= 970 ->
  (let '(mrs, e') := shr_fexp prec emax m1 e loc_Exact in
   match shr_m mrs with
   | Z0 => S754_zero s
   | Zpos m => if e' <=? emax - prec then S754_finite s m e' else S754_infinity s
   | Zneg _ => S754_nan
   end) = finish s m1 e.
Proof.
  intros Hm He. unfold finish.
  destruct (Z.eqb_spec m1 (2 ^ 53)) as [->|Hne].
  - change (2 ^ 53) with (Zpos 9007199254740992).
    rewrite shr_fexp_54 by (try reflexivity; lia).
    cbn [shr_record_of_loc shr_1 shr_m].
    replace (e + 1 <=? emax - prec) with true
      by (symmetry; apply Z.leb_le; unfold emax, prec; lia).
    reflexivity.
  - destruct m1 as [|p|p]; try lia.
    rewrite shr_fexp_53; [|apply digits2_unique; lia|lia].
    cbn [shr_record_of_loc shr_m].
    replace (e <=? emax - prec) with true
      by (symmetry; apply Z.leb_le; unfold emax, prec; lia).
    reflexivity.
Qed.

Lemma round_nearest_even_bounds m l :
  m <= round_nearest_even m l <= m + 1.
Proof.
  destruct l as [|[]]; cbn [round_nearest_even]; try lia.
  destruct (Z.even m); lia.
Qed.

Lemma binary_round_aux_53 s m e l :
  Zpos (digits2_pos m) = 53 -> -1074 <= e <= 970 ->
  binary_round_aux prec emax s (Zpos m) e l
  = finish s (round_nearest_even (Zpos m) l) e.
Proof.
  intros Hd He. unfold binary_round_aux.
  rewrite shr_fexp_53 by lia.
  rewrite shr_record_of_loc_m, loc_of_shr_record_of_loc.
  apply second_pass; [|lia].
  pose proof (digits2_bounds m) as Hb. rewrite Hd in Hb. change (53 - 1) with 52 in Hb.
  pose proof (round_nearest_even_bounds (Zpos m) l). lia.
Qed.

Lemma shr_1_m m r s :
  0 <= m -> shr_m (shr_1 (Build_shr_record m r s)) = m / 2.
Proof.
  intros Hm. rewrite <- Z.div2_div.
  destruct m as [|[p|p|]|p]; try lia; reflexivity.
Qed.

Lemma binary_round_aux_54 s m e l :
  Zpos (digits2_pos m) = 54 -> -1075 <= e <= 969 ->
  binary_round_aux prec emax s (Zpos m) e l
  = finish s (round_nearest_even (Zpos m / 2) (shifted_loc (Zpos m) l)) (e + 1).
Proof.
  intros Hd He. unfold binary_round_aux.
  rewrite shr_fexp_54 by lia.
  assert (Hm : shr_m (shr_1 (shr_record_of_loc (Zpos m) l)) = Zpos m / 2).
  { destruct l as [|[]]; cbn [shr_record_of_loc]; apply shr_1_m; lia. }
  rewrite Hm. fold (shifted_loc (Zpos m) l).
  apply second_pass; [|lia].
  pose proof (digits2_bounds m) as Hb. rewrite Hd in Hb. change (54 - 1) with 53 in Hb.
  pose proof (round_nearest_even_bounds (Zpos m / 2) (shifted_loc (Zpos m) l)).
  assert (2 ^ 52 <= Zpos m / 2 < 2 ^ 53).
  { change (2 ^ 53) with (2 * 2 ^ 52) in Hb. change (2 ^ 54) with (2 * 2 ^ 53) in Hb.
    split; [apply Z.div_le_lower_bound; lia | apply Z.div_lt_upper_bound; lia]. }
  lia.
Qed.

Lemma pow2_split a b : 0 <= a -> 0 <= b -> 2 ^ (a + b) = 2 ^ a * 2 ^ b.
Proof. intros. apply Z.pow_add_r; lia. Qed.

Lemma binary_round_exact s p e :
  let d := Zpos (digits2_pos p) in
  d <= 53 -> -1021 <= d + e <= 1023 ->
  exists m,
    binary_round prec emax s p e = S754_finite s m (e + d - 53) /\
    Zpos m = Zpos p * 2 ^ (53 - d) /\ Zpos (digits2_pos m) = 53.
Proof.
  intros d Hd He. unfold binary_round. fold d.
  rewrite fexp_normal by lia.
  pose proof (digits2_bounds p) as Hb. fold d in Hb.
  assert (Hd0 : 1 <= d) by (unfold d; lia).
  assert (Hpow : 2 ^ 52 = 2 ^ (d - 1) * 2 ^ (53 - d)).
  { rewrite <- pow2_split by lia. f_equal. lia. }
  assert (Hpow' : 2 ^ 53 = 2 ^ d * 2 ^ (53 - d)).
  { rewrite <- pow2_split by lia. f_equal. lia. }
  assert (Hk : 0 < 2 ^ (53 - d)) by (apply Z.pow_pos_nonneg; lia).
  unfold shl_align. replace (d + e - 53 - e) with (d - 53) by lia.
  destruct (d - 53) as [|q|q] eqn:Hq; try lia.
  - exists p. replace (53 - d) with 0 by lia. replace (e + d - 53) with e by lia.
    assert (Hd53 : Zpos (digits2_pos p) = 53) by (fold d; lia).
    rewrite binary_round_aux_53 by lia.
    cbn [round_nearest_even]. unfold finish.
    destruct (Z.eqb_spec (Zpos p) (2 ^ 53)) as [Heq|_].
    + replace d with 53 in Hb by lia. lia.
    + split; [reflexivity|]. split; [lia | exact Hd53].
  - exists (Pos.iter xO p q).
    assert (Hm : Zpos (Pos.iter xO p q) = Zpos p * 2 ^ (53 - d)).
    { rewrite iter_xO. f_equal. f_equal. lia. }
    assert (Hd53 : Zpos (digits2_pos (Pos.iter xO p q)) = 53).
    { apply digits2_unique. rewrite Hm. change (53 - 1) with 52. nia. }
    rewrite binary_round_aux_53 by lia.
    cbn [round_nearest_even]. unfold finish.
    destruct (Z.eqb_spec (Zpos (Pos.iter xO p q)) (2 ^ 53)) as [Heq|_].
    + rewrite Hm in Heq. nia.
    + split; [f_equal; lia|]. split; [exact Hm | exact Hd53].
Qed.

Lemma of_int_exact n :
  0 < n < 2 ^ 53 ->
  exists m e,
    Prim2SF (of_int n) = S754_finite false m e /\
    Zpos (digits2_pos m) = 53 /\
    -52 <= e <= 0 /\ Zpos m = n * 2 ^ (- e).
Proof.
  intros Hn. destruct n as [|p|p]; try lia.
  unfold of_int. rewrite of_uint63_spec.
  rewrite Uint63.of_Z_spec.
  rewrite Z.mod_small by (change Uint63.wB with (2 ^ 63); change (2^53) with 9007199254740992 in Hn; change (2^63) with 9223372036854775808; lia).
  cbn [binary_normalize].
  pose proof (digits2_bounds p) as Hb.
  assert (Hd : Zpos (digits2_pos p) <= 53).
  { destruct (Z.le_gt_cases (Zpos (digits2_pos p)) 53) as [H|H]; [exact H|].
    assert (2 ^ 53 <= 2 ^ (Zpos (digits2_pos p) - 1)) by (apply Z.pow_le_mono_r; lia).
    lia. }
  destruct (binary_round_exact false p 0) as (m & Hr & Hm & Hd53); [exact Hd | lia |].
  exists m, (Zpos (digits2_pos p) - 53).
  split; [rewrite Hr; f_equal; lia|]. split; [exact Hd53|]. split; [lia|].
  rewrite Hm. f_equal. f_equal. lia.
Qed.

(** ** Division *)

Lemma SFdiv_core_53 m1 e1 m2 e2 :
  Zpos (digits2_pos m1) = 53 -> Zpos (digits2_pos m2) = 53 ->
  -1021 <= e1 - e2 ->
  SFdiv_core_binary prec emax (Zpos m1) e1 (Zpos m2) e2
  = ((Zpos m1 * 2 ^ 53) / Zpos m2, e1 - e2 - 53,
     new_location (Zpos m2) ((Zpos m1 * 2 ^ 53) mod Zpos m2)).
Proof.
  intros H1 H2 He. unfold SFdiv_core_binary. cbn [Zdigits2]. rewrite H1, H2.
  replace (53 + e1 - (53 + e2)) with (e1 - e2) by lia.
  rewrite fexp_normal by lia.
  replace (Z.min (e1 - e2 - 53) (e1 - e2)) with (e1 - e2 - 53) by lia.
  replace (e1 - e2 - (e1 - e2 - 53)) with 53 by lia.
  rewrite Z.shiftl_mul_pow2 by lia.
  unfold Z.div, Z.modulo.
  destruct (Z.div_eucl (Zpos m1 * 2 ^ 53) (Zpos m2)) as [q r]. reflexivity.
Qed.

Lemma even_succ_odd q : Z.even q = false -> Z.even (q + 1) = true.
Proof.
  intros H. rewrite Z.even_add, H. reflexivity.
Qed.

Lemma round_div N D :
  0 <= N -> 0 < D -> Z.even D = true ->
  let q := N / D in
  let m := round_nearest_even q (new_location D (N mod D)) in
  nearest N D m /\ q <= m <= q + 1 /\ q * D <= N.
Proof.
  intros HN HD Heven q m.
  pose proof (Z.div_mod N D ltac:(lia)) as Hdm.
  pose proof (Z.mod_pos_bound N D HD) as Hr.
  fold q in Hdm. set (r := N mod D) in *.
  assert (HqD : N = q * D + r) by lia.
  unfold nearest. subst m. unfold new_location. rewrite Heven.
  unfold new_location_even.
  destruct (Z.eqb_spec r 0) as [Hr0|Hr0].
  - cbn [round_nearest_even]. repeat split; try lia; intros Ht; exfalso; nia.
  - destruct (Z.compare_spec (2 * r) D) as [Heq|Hlt|Hgt]; cbn [round_nearest_even].
    + destruct (Z.even q) eqn:Hq.
      * repeat split; try lia; intros _; exact Hq.
      * repeat split; try lia; intros _; apply even_succ_odd, Hq.
    + repeat split; try lia; intros Ht; exfalso; nia.
    + repeat split; try lia; intros Ht; exfalso; nia.
Qed.

Lemma shifted_loc_cases q r D :
  0 <= q ->
  shifted_loc q (new_location D r)
  = match Z.odd q, r =? 0 with
    | false, true => loc_Exact
    | false, false => loc_Inexact Lt
    | true, true => loc_Inexact Eq
    | true, false => loc_Inexact Gt
    end.
Proof.
  intros Hq. unfold shifted_loc, new_location, new_location_even, new_location_odd.
  assert (Hrec : forall rb sb,
            loc_of_shr_record (shr_1 (Build_shr_record q rb sb))
            = loc_of_shr_record (Build_shr_record 0 (Z.odd q) (rb || sb))).
  { intros rb sb. destruct q as [|[p|p|]|p]; try lia; reflexivity. }
  destruct (Z.even D); destruct (r =? 0);
    try (cbn [shr_record_of_loc]; rewrite Hrec; destruct (Z.odd q); reflexivity);
    match goal with
    | |- context [loc_Inexact ?c] =>
        destruct c; cbn [shr_record_of_loc]; rewrite Hrec; destruct (Z.odd q); reflexivity
    end.
Qed.

Lemma round_div_shift N D :
  0 <= N -> 0 < D ->
  let q := N / D in
  let m := round_nearest_even (q / 2) (shifted_loc q (new_location D (N mod D))) in
  nearest N (2 * D) m /\ q / 2 <= m <= q / 2 + 1 /\ (q / 2) * (2 * D) <= N.
Proof.
  intros HN HD q m.
  pose proof (Z.div_mod N D ltac:(lia)) as Hdm.
  pose proof (Z.mod_pos_bound N D HD) as Hr.
  fold q in Hdm. set (r := N mod D) in *.
  assert (Hq0 : 0 <= q) by (apply Z.div_pos; lia).
  pose proof (Z.div_mod q 2 ltac:(lia)) as Hq2.
  pose proof (Z.mod_pos_bound q 2 ltac:(lia)) as Ho.
  set (h := q / 2) in *.
  assert (Hodd : Z.odd q = (q mod 2 =? 1)).
  { rewrite Zmod_odd. destruct (Z.odd q); reflexivity. }
  subst m. rewrite shifted_loc_cases by lia. rewrite Hodd.
  assert (HN' : N = (2 * h + q mod 2) * D + r) by lia.
  unfold nearest.
  destruct (Z.eqb_spec (q mod 2) 1) as [Ho1|Ho1];
    destruct (Z.eqb_spec r 0) as [Hr0|Hr0]; cbn [round_nearest_even].
  - rewrite Ho1, Hr0 in HN'.
    destruct (Z.even h) eqn:Hh.
    + repeat split; try nia; intros _; exact Hh.
    + repeat split; try nia; intros _; apply even_succ_odd, Hh.
  - rewrite Ho1 in HN'. repeat split; try nia; intros Ht; exfalso; nia.
  - assert (Ho0 : q mod 2 = 0) by lia. rewrite Ho0, Hr0 in HN'.
    repeat split; try nia; intros Ht; exfalso; nia.
  - assert (Ho0 : q mod 2 = 0) by lia. rewrite Ho0 in HN'.
    repeat split; try nia; intros Ht; exfalso; nia.
Qed.

(** ** Correct rounding of a quotient of integers *)

Lemma cross_le X Y X' Y' c1 c2 :
  0 < Y -> 0 < Y' -> X * Y' = X' * Y -> c1 * X <= c2 * Y -> c1 * X' <= c2 * Y'.
Proof.
  intros HY HY' Hx H. apply (Z.mul_le_mono_pos_r _ _ Y HY).
  replace (c1 * X' * Y) with (c1 * X * Y') by (rewrite <- !Z.mul_assoc, Hx; reflexivity).
  replace (c2 * Y' * Y) with (c2 * Y * Y') by ring.
  apply Z.mul_le_mono_nonneg_r; lia.
Qed.

Lemma cross_ge X Y X' Y' c1 c2 :
  0 < Y -> 0 < Y' -> X * Y' = X' * Y -> c2 * Y <= c1 * X -> c2 * Y' <= c1 * X'.
Proof.
  intros HY HY' Hx H. apply (Z.mul_le_mono_pos_r _ _ Y HY).
  replace (c1 * X' * Y) with (c1 * X * Y') by (rewrite <- !Z.mul_assoc, Hx; reflexivity).
  replace (c2 * Y' * Y) with (c2 * Y * Y') by ring.
  apply Z.mul_le_mono_nonneg_r; lia.
Qed.

Lemma cross_eq X Y X' Y' c1 c2 :
  0 < Y -> 0 < Y' -> X * Y' = X' * Y -> c1 * X' = c2 * Y' -> c1 * X = c2 * Y.
Proof.
  intros HY HY' Hx H. apply (Z.mul_cancel_r _ _ Y'); [lia|].
  replace (c1 * X * Y') with (c1 * X' * Y) by (rewrite <- !Z.mul_assoc, Hx; reflexivity).
  rewrite H. ring.
Qed.

Lemma finish_rne s a b N Dk h m g :
  0 < b -> 0 < Dk -> g <= -1 ->
  nearest N Dk m -> h <= m <= h + 1 -> h * Dk <= N -> 2 ^ 52 <= h < 2 ^ 53 ->
  N * b = a * 2 ^ (- g) * Dk ->
  exists m' e',
    finish s m g = S754_finite s m' e' /\ is_rne a b m' e' /\ g <= e' <= g + 1.
Proof.
  intros Hb HDk Hg (Hn & Hup & Hdown) Hm Hh Hhr Hx.
  set (A := a * 2 ^ (- g)) in *.
  unfold finish. destruct (Z.eqb_spec m (2 ^ 53)) as [->|Hne].
  - exists (2 ^ 52)%positive, (g + 1).
    split; [reflexivity|]. split; [|lia].
    assert (HA : A = 2 * (a * 2 ^ (- (g + 1)))).
    { unfold A. replace (- g) with (Z.succ (- (g + 1))) by lia.
      rewrite Z.pow_succ_r by lia. ring. }
    set (A' := a * 2 ^ (- (g + 1))) in *.
    change (Zpos (2 ^ 52)) with (2 ^ 52).
    split; [lia|]. split; [lia|].
    assert (Hu : 2 * A <= (2 * 2 ^ 53 + 1) * b).
    { apply (cross_le N Dk A b 2 (2 * 2 ^ 53 + 1)); try lia. }
    assert (Hl : (2 * 2 ^ 53 - 1) * b <= 2 * A).
    { apply (cross_ge N Dk A b 2 (2 * 2 ^ 53 - 1)); try lia. }
    change (2 ^ 53) with (2 * 2 ^ 52) in Hu, Hl.
    split; [lia|]. split; [intros _; reflexivity|].
    split; [intros _; lia | intros Hc; contradiction Hc; reflexivity].
  - destruct m as [|p|p]; try lia.
    exists p, g. split; [reflexivity|]. split; [|lia].
    fold A.
    assert (Hu : 2 * A <= (2 * Zpos p + 1) * b)
      by (apply (cross_le N Dk A b 2 (2 * Zpos p + 1)); lia).
    assert (Hl : (2 * Zpos p - 1) * b <= 2 * A)
      by (apply (cross_ge N Dk A b 2 (2 * Zpos p - 1)); lia).
    split; [lia|]. split; [lia|]. split; [exact Hu|].
    split; [|split].
    + intros Ht. apply Hup. apply (cross_eq N Dk A b 2 (2 * Zpos p + 1)); lia.
    + intros Hp.
      assert (Hhp : h = Zpos p) by lia.
      assert (H1 : 1 * (Zpos p * b) <= 1 * A).
      { rewrite !Z.mul_1_l.
        assert (H2 : Zpos p * b <= 1 * A).
        { apply (cross_ge N Dk A b 1 (Zpos p)); try lia. }
        lia. }
      lia.
    + intros _. split; [exact Hl|].
      intros Ht. apply Hdown. apply (cross_eq N Dk A b 2 (2 * Zpos p - 1)); lia.
Qed.

Lemma SFdiv_rne a b m1 e1 m2 e2 :
  0 < a -> 0 < b ->
  Zpos (digits2_pos m1) = 53 -> Zpos (digits2_pos m2) = 53 ->
  Z.even (Zpos m2) = true ->
  e1 <= 0 -> e2 <= 0 ->
  Zpos m1 = a * 2 ^ (- e1) -> Zpos m2 = b * 2 ^ (- e2) ->
  -1021 <= e1 - e2 <= 50 ->
  exists m e,
    SFdiv prec emax (S754_finite false m1 e1) (S754_finite false m2 e2)
      = S754_finite false m e /\
    is_rne a b m e /\ e1 - e2 - 53 <= e <= e1 - e2 - 51.
Proof.
  intros Ha Hb Hd1 Hd2 Heven He1 He2 Hm1 Hm2 He.
  unfold SFdiv. rewrite SFdiv_core_53 by lia. cbn [xorb].
  pose proof (digits2_bounds m1) as Hb1. rewrite Hd1 in Hb1.
  pose proof (digits2_bounds m2) as Hb2. rewrite Hd2 in Hb2.
  change (53 - 1) with 52 in Hb1, Hb2.
  set (N := Zpos m1 * 2 ^ 53). set (D := Zpos m2).
  fold D in Hb2, Heven, Hm2.
  assert (HN : 0 <= N) by (unfold N; lia).
  assert (HD : 0 < D) by (unfold D; lia).
  assert (Hq : 2 ^ 52 <= N / D < 2 ^ 54).
  { split.
    - apply Z.div_le_lower_bound; [lia|]. unfold N.
      change (2 ^ 53) with 9007199254740992 in *.
      change (2 ^ 52) with 4503599627370496 in *. lia.
    - apply Z.div_lt_upper_bound; [lia|]. unfold N.
      change (2 ^ 54) with 18014398509481984.
      change (2 ^ 53) with 9007199254740992 in *.
      change (2 ^ 52) with 4503599627370496 in *. lia. }
  assert (Hpow : forall k, 0 <= k -> k <= 53 - e1 + e2 ->
            N * b = a * 2 ^ (- (e1 - e2 - 53 + k)) * (2 ^ k * D)).
  { intros k Hk Hk'. unfold N. rewrite Hm1, Hm2.
    replace (- (e1 - e2 - 53 + k)) with (53 - e1 + e2 - k) by lia.
    transitivity (a * b * (2 ^ (- e1) * 2 ^ 53)); [ring|].
    transitivity (a * b * (2 ^ (53 - e1 + e2 - k) * (2 ^ k * 2 ^ (- e2)))); [|ring].
    f_equal. rewrite <- !pow2_split by lia. f_equal. lia. }
  destruct (Z.lt_ge_cases (N / D) (2 ^ 53)) as [Hlt|Hge].
  - destruct (N / D) as [|qp|qp] eqn:Hqp; try lia.
    rewrite binary_round_aux_53; [|apply digits2_unique; change (53 - 1) with 52; lia|lia].
    rewrite <- Hqp.
    destruct (round_div N D HN HD Heven) as (Hnear & Hrange & Hfloor).
    destruct (finish_rne false a b N D (N / D)
                (round_nearest_even (N / D) (new_location D (N mod D)))
                (e1 - e2 - 53)) as (m & e & Hf & Hr & Hre); try lia; try assumption.
    + specialize (Hpow 0 ltac:(lia) ltac:(lia)).
      rewrite Z.add_0_r in Hpow. rewrite Hpow. change (2 ^ 0) with 1. ring.
    + exists m, e. split; [exact Hf|]. split; [exact Hr | lia].
  - destruct (N / D) as [|qp|qp] eqn:Hqp; try lia.
    rewrite binary_round_aux_54; [|apply digits2_unique; change (54 - 1) with 53; lia|lia].
    rewrite <- Hqp.
    destruct (round_div_shift N D HN HD) as (Hnear & Hrange & Hfloor).
    assert (Hh : 2 ^ 52 <= (N / D) / 2 < 2 ^ 53).
    { change (2 ^ 54) with (2 * 2 ^ 53) in Hq. change (2 ^ 53) with (2 * 2 ^ 52) in Hge.
      split; [apply Z.div_le_lower_bound; lia | apply Z.div_lt_upper_bound; lia]. }
    destruct (finish_rne false a b N (2 * D) ((N / D) / 2)
                (round_nearest_even ((N / D) / 2)
                   (shifted_loc (N / D) (new_location D (N mod D))))
                (e1 - e2 - 53 + 1)) as (m & e & Hf & Hr & Hre); try lia; try assumption.
    + specialize (Hpow 1 ltac:(lia) ltac:(lia)).
      rewrite Hpow. change (2 ^ 1) with 2. ring.
    + exists m, e. split; [exact Hf|]. split; [exact Hr | lia].
Qed.

Lemma is_rne_scale a b c m e :
  0 < b -> 0 < c -> is_rne a b m e -> is_rne (c * a) (c * b) m e.
Proof.
  intros Hb Hc (He & Hm & Hu & Hut & Hl52 & Hl).
  set (A := a * 2 ^ (- e)) in *.
  assert (HA : c * a * 2 ^ (- e) = c * A) by (unfold A; ring).
  assert (Hx : A * (c * b) = c * A * b) by ring.
  assert (Hcb : 0 < c * b) by lia.
  unfold is_rne. rewrite HA.
  split; [exact He|]. split; [exact Hm|].
  split; [apply (cross_le A b (c * A) (c * b) 2 (2 * Zpos m + 1)); lia|].
  split; [intros Ht; apply Hut;
          apply (cross_eq A b (c * A) (c * b) 2 (2 * Zpos m + 1)); lia|].
  split.
  - intros Hp. specialize (Hl52 Hp).
    apply (cross_ge A b (c * A) (c * b) 4 (4 * Zpos m - 1)); lia.
  - intros Hp. destruct (Hl Hp) as [Hl1 Hl2]. split.
    + apply (cross_ge A b (c * A) (c * b) 2 (2 * Zpos m - 1)); lia.
    + intros Ht. apply Hl2.
      apply (cross_eq A b (c * A) (c * b) 2 (2 * Zpos m - 1)); lia.
Qed.

Lemma is_rne_lower a b m e :
  0 < b -> is_rne a b m e ->
  (2 * Zpos m - 1) * b <= 2 * (a * 2 ^ (- e)) /\
  2 * (a * 2 ^ (- e)) <= (2 * Zpos m + 1) * b.
Proof.
  intros Hb (He & Hm & Hu & Hut & Hl52 & Hl). split; [|exact Hu].
  destruct (Z.eq_dec (Zpos m) (2 ^ 52)) as [Hp|Hp].
  - specialize (Hl52 Hp). nia.
  - apply Hl, Hp.
Qed.

Lemma is_rne_exponent a b m1 e1 m2 e2 :
  0 < a -> 0 < b -> is_rne a b m1 e1 -> is_rne a b m2 e2 -> e1 < e2 -> False.
Proof.
  intros Ha Hb H1 H2 Hlt.
  destruct H1 as (He1 & Hm1 & Hu1 & Hut1 & _).
  destruct H2 as (He2 & Hm2 & _ & _ & Hl52 & Hl).
  assert (HA : a * 2 ^ (- e1) = a * 2 ^ (- e2) * 2 ^ (e2 - e1)).
  { rewrite <- Z.mul_assoc, <- pow2_split by lia. f_equal. f_equal. lia. }
  assert (Hk : 2 <= 2 ^ (e2 - e1)).
  { change 2 with (2 ^ 1) at 1. apply Z.pow_le_mono_r; lia. }
  assert (HA2 : 0 < a * 2 ^ (- e2)).
  { apply Z.mul_pos_pos; [lia | apply Z.pow_pos_nonneg; lia]. }
  set (A1 := a * 2 ^ (- e1)) in *. set (A2 := a * 2 ^ (- e2)) in *.
  assert (H12 : 2 * A2 <= A1) by nia.
  assert (Hlow : (2 ^ 54 - 1) * b <= 4 * A2).
  { destruct (Z.eq_dec (Zpos m2) (2 ^ 52)) as [Hp|Hp].
    - specialize (Hl52 Hp). rewrite Hp in Hl52. exact Hl52.
    - destruct (Hl Hp) as [Hl1 _].
      assert ((2 ^ 54 - 1) * b <= 2 * ((2 * Zpos m2 - 1) * b)).
      { change (2 ^ 54) with (4 * 2 ^ 52). nia. }
      lia. }
  assert (Hup : (2 * Zpos m1 + 1) * b <= (2 ^ 54 - 1) * b).
  { apply Z.mul_le_mono_nonneg_r; [lia|]. change (2 ^ 54) with (2 * 2 ^ 53). lia. }
  assert (Heq : 2 * A1 = (2 * Zpos m1 + 1) * b) by lia.
  assert (Hm : Zpos m1 = 2 ^ 53 - 1).
  { assert ((2 * Zpos m1 + 1) * b = (2 ^ 54 - 1) * b) by lia.
    assert (2 * Zpos m1 + 1 = 2 ^ 54 - 1) by (apply (Z.mul_cancel_r _ _ b); lia).
    change (2 ^ 54) with (2 * 2 ^ 53) in *. lia. }
  specialize (Hut1 Heq). rewrite Hm in Hut1. discriminate Hut1.
Qed.

Lemma is_rne_unique a b m1 e1 m2 e2 :
  0 < a -> 0 < b -> is_rne a b m1 e1 -> is_rne a b m2 e2 ->
  m1 = m2 /\ e1 = e2.
Proof.
  intros Ha Hb H1 H2.
  assert (He : e1 = e2).
  { destruct (Z.lt_trichotomy e1 e2) as [Hlt|[Heq|Hgt]]; [|exact Heq|].
    - exfalso. exact (is_rne_exponent a b m1 e1 m2 e2 Ha Hb H1 H2 Hlt).
    - exfalso. exact (is_rne_exponent a b m2 e2 m1 e1 Ha Hb H2 H1 Hgt). }
  subst e2. split; [|reflexivity].
  pose proof (is_rne_lower a b m1 e1 Hb H1) as [Hl1 Hu1].
  pose proof (is_rne_lower a b m2 e1 Hb H2) as [Hl2 Hu2].
  destruct H1 as (_ & Hm1 & _ & Hut1 & Hl52_1 & Hlo1).
  destruct H2 as (_ & Hm2 & _ & Hut2 & Hl52_2 & Hlo2).
  set (A := a * 2 ^ (- e1)) in *.
  assert (Hle12 : Zpos m2 <= Zpos m1 + 1) by nia.
  assert (Hle21 : Zpos m1 <= Zpos m2 + 1) by nia.
  assert (Hodd : forall x, Z.even x = true -> Z.even (x + 1) = true -> False).
  { intros x Hx Hx1. rewrite Z.even_add, Hx in Hx1. discriminate Hx1. }
  destruct (Z.lt_trichotomy (Zpos m1) (Zpos m2)) as [Hlt|[Heq|Hgt]].
  - exfalso. assert (Hs : Zpos m2 = Zpos m1 + 1) by lia.
    assert (Ht : 2 * A = (2 * Zpos m1 + 1) * b) by (rewrite Hs in Hl2; nia).
    assert (Hne : Zpos m2 <> 2 ^ 52) by lia.
    destruct (Hlo2 Hne) as [_ Ht2].
    apply (Hodd (Zpos m1)); [apply Hut1, Ht|].
    rewrite <- Hs. apply Ht2. rewrite Hs. rewrite Ht. ring.
  - injection Heq as ->. reflexivity.
  - exfalso. assert (Hs : Zpos m1 = Zpos m2 + 1) by lia.
    assert (Ht : 2 * A = (2 * Zpos m2 + 1) * b) by (rewrite Hs in Hl1; nia).
    assert (Hne : Zpos m1 <> 2 ^ 52) by lia.
    destruct (Hlo1 Hne) as [_ Ht1].
    apply (Hodd (Zpos m2)); [apply Hut2, Ht|].
    rewrite <- Hs. apply Ht1. rewrite Hs. rewrite Ht. ring.
Qed.

(** ** Subtraction *)

Lemma shr_1_nonneg mrs : 0 <= shr_m mrs -> 0 <= shr_m (shr_1 mrs).
Proof.
  destruct mrs as [m r s]. cbn [shr_m]. intros Hm.
  rewrite shr_1_m by lia. apply Z.div_pos; lia.
Qed.

Lemma div_div_pos a b c : 0 < b -> 0 < c -> a / b / c = a / (b * c).
Proof. intros Hb Hc. apply Z.div_div; lia. Qed.

Lemma iter_shr_1 p : forall mrs,
  0 <= shr_m mrs ->
  0 <= shr_m (iter_pos shr_1 p mrs) /\
  shr_m (iter_pos shr_1 p mrs) = shr_m mrs / 2 ^ Zpos p.
Proof.
  induction p as [p IH|p IH|]; intros mrs Hm; cbn [iter_pos].
  - pose proof (shr_1_nonneg mrs Hm) as H1.
    destruct (IH (shr_1 mrs) H1) as [H2 E2].
    destruct (IH _ H2) as [H3 E3].
    split; [exact H3|]. rewrite E3, E2.
    destruct mrs as [m r s]. cbn [shr_m] in *. rewrite shr_1_m by lia.
    assert (Hp : 0 < 2 ^ Zpos p) by (apply Z.pow_pos_nonneg; lia).
    assert (Hx : 2 ^ Zpos p~1 = 2 * 2 ^ Zpos p * 2 ^ Zpos p).
    { rewrite Pos2Z.inj_xI.
      replace (2 * Zpos p + 1) with (1 + Zpos p + Zpos p) by lia.
      rewrite (pow2_split (1 + Zpos p) (Zpos p)), (pow2_split 1 (Zpos p)) by lia.
      reflexivity. }
    rewrite Hx, <- !div_div_pos by lia. reflexivity.
  - destruct (IH mrs Hm) as [H2 E2].
    destruct (IH _ H2) as [H3 E3].
    split; [exact H3|]. rewrite E3, E2.
    assert (Hp : 0 < 2 ^ Zpos p) by (apply Z.pow_pos_nonneg; lia).
    assert (Hx : 2 ^ Zpos p~0 = 2 ^ Zpos p * 2 ^ Zpos p).
    { replace (Zpos p~0) with (Zpos p + Zpos p) by lia.
      rewrite (pow2_split (Zpos p) (Zpos p)) by lia. reflexivity. }
    rewrite Hx, <- div_div_pos by lia. reflexivity.
  - split; [apply shr_1_nonneg, Hm|].
    destruct mrs as [m r s]. cbn [shr_m] in *. rewrite shr_1_m by lia.
    reflexivity.
Qed.

Lemma finish_finite s m1 g :
  2 ^ 52 <= m1 <= 2 ^ 53 ->
  exists m' e', finish s m1 g = S754_finite s m' e' /\ g <= e'.
Proof.
  intros Hm. unfold finish. destruct (Z.eqb_spec m1 (2 ^ 53)).
  - eexists _, _. split; [reflexivity | lia].
  - destruct m1 as [|p|p]; try lia. eexists _, _. split; [reflexivity | lia].
Qed.

Lemma shr_fexp_big d e k l :
  Zpos (digits2_pos d) - 53 = Zpos k -> -1021 <= Zpos (digits2_pos d) + e ->
  shr_fexp prec emax (Zpos d) e l
  = (iter_pos shr_1 k (shr_record_of_loc (Zpos d) l), e + Zpos k).
Proof.
  intros Hk He. unfold shr_fexp. cbn [Zdigits2]. rewrite fexp_normal by lia.
  replace (Zpos (digits2_pos d) + e - 53 - e) with (Zpos k) by lia.
  reflexivity.
Qed.

Lemma binary_round_lower s d e :
  -1021 <= Zpos (digits2_pos d) + e <= 1000 ->
  exists m' e',
    binary_round prec emax s d e = S754_finite s m' e' /\
    Zpos (digits2_pos d) + e - 53 <= e'.
Proof.
  intros He. set (dd := Zpos (digits2_pos d)) in *.
  destruct (Z.le_gt_cases dd 53) as [Hd|Hd].
  - destruct (binary_round_exact s d e) as (m & Hr & _); [exact Hd | fold dd; lia |].
    fold dd in Hr. exists m, (e + dd - 53). split; [exact Hr | lia].
  - unfold binary_round. fold dd. rewrite fexp_normal by lia.
    unfold shl_align. replace (dd + e - 53 - e) with (dd - 53) by lia.
    destruct (dd - 53) as [|k|k] eqn:Hk; try lia.
    unfold binary_round_aux.
    rewrite (shr_fexp_big d e k) by (fold dd; lia).
    cbn [shr_record_of_loc].
    destruct (iter_shr_1 k (Build_shr_record (Zpos d) false false)) as [H0 Em];
      [cbn; lia|].
    cbn [shr_m] in Em.
    pose proof (digits2_bounds d) as Hb. fold dd in Hb.
    set (mrs := iter_pos shr_1 k (Build_shr_record (Zpos d) false false)) in *.
    assert (Hm : 2 ^ 52 <= shr_m mrs < 2 ^ 53).
    { rewrite Em.
      assert (Hp : 0 < 2 ^ Zpos k) by (apply Z.pow_pos_nonneg; lia).
      assert (H52 : 2 ^ (dd - 1) = 2 ^ 52 * 2 ^ Zpos k)
        by (rewrite <- pow2_split by lia; f_equal; lia).
      assert (H53 : 2 ^ dd = 2 ^ 53 * 2 ^ Zpos k)
        by (rewrite <- pow2_split by lia; f_equal; lia).
      split; [apply Z.div_le_lower_bound; lia | apply Z.div_lt_upper_bound; lia]. }
    pose proof (round_nearest_even_bounds (shr_m mrs) (loc_of_shr_record mrs)) as Hr.
    rewrite (second_pass s (round_nearest_even (shr_m mrs) (loc_of_shr_record mrs))
               (e + Zpos k)) by lia.
    destruct (finish_finite s (round_nearest_even (shr_m mrs) (loc_of_shr_record mrs))
                (e + Zpos k)) as (m' & e' & Hf & He'); [lia|].
    exists m', e'. split; [exact Hf | lia].
Qed.

Lemma shl_align_fst m e ez :
  ez <= e -> Zpos (fst (shl_align m e ez)) = Zpos m * 2 ^ (e - ez).
Proof.
  intros H. unfold shl_align.
  destruct (ez - e) as [|k|k] eqn:Hk; try lia; cbn [fst].
  - replace (e - ez) with 0 by lia. lia.
  - rewrite iter_xO. f_equal. f_equal. lia.
Qed.

(** Two doubles between 2^-7 and 2^21 whose distance is at least 2^-19
    are more than 1e-6 apart. *)
Lemma SFsub_apart m1 e1 m2 e2 :
  -59 <= e1 <= -20 -> -59 <= e2 <= -20 ->
  Zpos m1 < 2 ^ 53 -> Zpos m2 < 2 ^ 53 ->
  2 ^ 40 <= Z.abs (Zpos m1 * 2 ^ (e1 + 59) - Zpos m2 * 2 ^ (e2 + 59)) ->
  SFltb (S754_finite false 4722366482869645 (-72))
        (SFabs (SFsub prec emax (S754_finite false m1 e1) (S754_finite false m2 e2)))
  = true.
Proof.
  intros He1 He2 Hm1 Hm2 Hgap. unfold SFsub.
  set (ez := Z.min e1 e2).
  rewrite !shl_align_fst by (unfold ez; lia). cbn [cond_Zopp].
  set (D := Zpos m1 * 2 ^ (e1 - ez) - Zpos m2 * 2 ^ (e2 - ez)).
  assert (HD : D * 2 ^ (ez + 59)
               = Zpos m1 * 2 ^ (e1 + 59) - Zpos m2 * 2 ^ (e2 + 59)).
  { unfold D. rewrite Z.mul_sub_distr_r, <- !Z.mul_assoc, <- !pow2_split
      by (unfold ez; lia).
    f_equal; f_equal; f_equal; lia. }
  rewrite <- HD in Hgap.
  assert (Hez : -59 <= ez <= -20) by (unfold ez; lia).
  assert (Hp : 0 < 2 ^ (ez + 59)) by (apply Z.pow_pos_nonneg; lia).
  assert (Hlow : forall d, Z.abs D = Zpos d -> -18 <= Zpos (digits2_pos d) + ez <= 1000).
  { intros d Hd. pose proof (digits2_bounds d) as Hb.
    set (dd := Zpos (digits2_pos d)) in *.
    rewrite Z.abs_mul, Hd, (Z.abs_eq (2 ^ (ez + 59))) in Hgap by lia.
    split.
    - destruct (Z.le_gt_cases (-18) (dd + ez)) as [H|H]; [exact H|exfalso].
      assert (2 ^ dd <= 2 ^ (-19 - ez)) by (apply Z.pow_le_mono_r; lia).
      assert (2 ^ (-19 - ez) * 2 ^ (ez + 59) = 2 ^ 40)
        by (rewrite <- pow2_split by lia; f_equal; lia).
      nia.
    - destruct (Z.le_gt_cases (dd + ez) 1000) as [H|H]; [exact H|exfalso].
      assert (2 ^ 100 <= 2 ^ (dd - 1)) by (apply Z.pow_le_mono_r; lia).
      assert (H1 : 2 ^ (e1 - ez) <= 2 ^ 39) by (apply Z.pow_le_mono_r; unfold ez; lia).
      assert (H2 : 2 ^ (e2 - ez) <= 2 ^ 39) by (apply Z.pow_le_mono_r; unfold ez; lia).
      assert (H1' : 0 < 2 ^ (e1 - ez)) by (apply Z.pow_pos_nonneg; unfold ez; lia).
      assert (H2' : 0 < 2 ^ (e2 - ez)) by (apply Z.pow_pos_nonneg; unfold ez; lia).
      assert (Z.abs D < 2 ^ 53 * 2 ^ 39) by (unfold D; nia).
      change (2 ^ 100) with (2 ^ 53 * 2 ^ 39 * 2 ^ 8) in *. lia. }
  assert (HD0 : D <> 0).
  { intros H0. rewrite H0 in Hgap. cbn in Hgap. lia. }
  destruct D as [|d|d] eqn:HDd; [contradiction HD0; reflexivity| |];
    cbn [binary_normalize];
    specialize (Hlow d eq_refl);
    [destruct (binary_round_lower false d ez) as (m' & e' & Hr & He')
    |destruct (binary_round_lower true d ez) as (m' & e' & Hr & He')];
    try lia; rewrite Hr; cbn [SFabs]; unfold SFltb, SFcompare;
    destruct (Z.compare_spec (-72) e'); try lia; reflexivity.
Qed.

(** ** The values of ratio tokens *)

Lemma of_int_rne n :
  0 < n < 2 ^ 53 ->
  exists m e, Prim2SF (of_int n) = S754_finite false m e /\ is_rne n 1 m e.
Proof.
  intros Hn. destruct (of_int_exact n Hn) as (m & e & Hx & Hd & He & Hm).
  exists m, e. split; [exact Hx|].
  pose proof (digits2_bounds m) as Hb. rewrite Hd in Hb. change (53 - 1) with 52 in Hb.
  unfold is_rne. rewrite <- Hm.
  split; [lia|]. split; [lia|]. split; [lia|].
  split; [intros; lia|]. split; [intros; lia|].
  intros _. split; [lia | intros; lia].
Qed.

Lemma div_of_int_rne a b m2 e2 :
  0 < a < 2 ^ 53 -> 0 < b ->
  Prim2SF (of_int b) = S754_finite false m2 e2 ->
  Zpos (digits2_pos m2) = 53 -> Z.even (Zpos m2) = true ->
  -50 <= e2 <= 0 -> Zpos m2 = b * 2 ^ (- e2) ->
  exists m e,
    Prim2SF (PrimFloat.div (of_int a) (of_int b)) = S754_finite false m e /\
    is_rne a b m e.
Proof.
  intros Ha Hb Hy Hd2 Heven He2 Hm2.
  destruct (of_int_exact a Ha) as (m1 & e1 & Hx & Hd1 & He1 & Hm1).
  rewrite div_spec, Hx, Hy. unfold SF64div.
  destruct (SFdiv_rne a b m1 e1 m2 e2) as (m & e & Hr & Hrne & _);
    try lia; try assumption.
  exists m, e. split; assumption.
Qed.

Lemma small_below_2_53 n : n < 10 ^ 8 -> n < 2 ^ 53.
Proof.
  intros H. assert (10 ^ 8 < 2 ^ 53) by reflexivity. lia.
Qed.

Lemma hundredths_of_int n : 0 <= n < 10 ^ 6 -> hundredths (100 * n) (of_int n).
Proof.
  intros Hn. destruct (Z.eq_dec n 0) as [->|Hn0].
  - left. split; reflexivity.
  - right. split; [lia|].
    assert (10 ^ 6 < 10 ^ 8) by reflexivity.
    destruct (of_int_rne n) as (m & e & Hx & Hr);
      [split; [lia | apply small_below_2_53; lia]|].
    exists m, e. split; [exact Hx|].
    apply (is_rne_scale n 1 100 m e) in Hr; try lia. exact Hr.
Qed.

Lemma hundredths_div10 K :
  0 <= K < 10 ^ 7 -> hundredths (10 * K) (PrimFloat.div (of_int K) (of_int 10)).
Proof.
  intros HK. destruct (Z.eq_dec K 0) as [->|HK0].
  - left. split; reflexivity.
  - right. split; [lia|].
    assert (10 ^ 7 < 10 ^ 8) by reflexivity.
    assert (HK' : 0 < K < 2 ^ 53) by (split; [lia | apply small_below_2_53; lia]).
    destruct (div_of_int_rne K 10 5629499534213120 (-49) HK')
      as (m & e & Hx & Hr); try reflexivity; try lia.
    exists m, e. split; [exact Hx|].
    apply (is_rne_scale K 10 10 m e) in Hr; try lia. exact Hr.
Qed.

Lemma hundredths_div100 K :
  0 <= K < 10 ^ 8 -> hundredths K (PrimFloat.div (of_int K) (of_int 100)).
Proof.
  intros HK. destruct (Z.eq_dec K 0) as [->|HK0].
  - left. split; reflexivity.
  - right. split; [lia|].
    assert (HK' : 0 < K < 2 ^ 53) by (split; [lia | apply small_below_2_53; lia]).
    destruct (div_of_int_rne K 100 7036874417766400 (-46) HK')
      as (m & e & Hx & Hr); try reflexivity; try lia.
    exists m, e. split; [exact Hx | exact Hr].
Qed.

Lemma isdigit_value c :
  Text.isdigit c = true -> 0 <= Z.of_N (N_of_ascii c) - 48 <= 9.
Proof.
  unfold Text.isdigit. rewrite andb_true_iff, !N.leb_le. lia.
Qed.

Lemma int_of_digits_bound digits :
  Forall (fun c => Text.isdigit c = true) digits ->
  0 <= Text.int_of_digits digits < 10 ^ Z.of_nat (List.length digits).
Proof.
  unfold Text.int_of_digits. intros Hd.
  assert (H : forall acc, 0 <= acc ->
            acc * 10 ^ Z.of_nat (List.length digits)
            <= fold_left (fun acc c => 10 * acc + (Z.of_N (N_of_ascii c) - 48))
                         digits acc
            < (acc + 1) * 10 ^ Z.of_nat (List.length digits)).
  { induction Hd as [|c digits Hc _ IH]; intros acc Hacc.
    - cbn. lia.
    - cbn [fold_left List.length]. rewrite Nat2Z.inj_succ, Z.pow_succ_r by lia.
      pose proof (isdigit_value c Hc) as Hv.
      specialize (IH (10 * acc + (Z.of_N (N_of_ascii c) - 48)) ltac:(lia)).
      assert (Hp : 0 < 10 ^ Z.of_nat (List.length digits))
        by (apply Z.pow_pos_nonneg; lia).
      nia. }
  specialize (H 0 ltac:(lia)). lia.
Qed.

Lemma int_of_digits_below digits n :
  Forall (fun c => Text.isdigit c = true) digits ->
  (List.length digits <= n)%nat ->
  0 <= Text.int_of_digits digits < 10 ^ Z.of_nat n.
Proof.
  intros Hd Hl. pose proof (int_of_digits_bound digits Hd) as Hb.
  assert (10 ^ Z.of_nat (List.length digits) <= 10 ^ Z.of_nat n)
    by (apply Z.pow_le_mono_r; lia).
  lia.
Qed.

(** Every ratio token has a value, the double nearest to a number of
    hundredths below a million. *)
Lemma token_hundredths token :
  ratio_token token ->
  exists x M, token_value token = Some x /\ 0 <= M < 10 ^ 8 /\ hundredths M x.
Proof.
  destruct token as [digits fraction]. intros (Hd & Hf & Hld & Hlf).
  unfold token_value, _parse_ratio_token.
  destruct fraction as [|c1 [|c2 [|c3 rest]]].
  - pose proof (int_of_digits_below digits 6 Hd ltac:(lia)) as Hv.
    change (Z.of_nat 6) with 6 in Hv.
    set (value := Text.int_of_digits digits) in *.
    assert (10 ^ 6 < 10 ^ 8) by reflexivity.
    destruct ((value >=? 1000) && negb (value mod 100 =? 0)); cbn [fst].
    + exists (PrimFloat.div (of_int value) 100), value.
      split; [reflexivity|]. split; [lia|].
      change 100%float with (of_int 100). apply hundredths_div100. lia.
    + exists (of_int value), (100 * value).
      split; [reflexivity|].
      split; [change (10 ^ 6) with 1000000 in Hv; change (10 ^ 8) with 100000000; lia|].
      apply hundredths_of_int, Hv.
  - cbn [fst]. unfold OcrParser.float_of_token.
    change (10 ^ Z.of_nat (List.length [c1])) with 10.
    assert (Hv : 0 <= Text.int_of_digits (digits ++ [c1]) < 10 ^ Z.of_nat 7).
    { apply int_of_digits_below; [apply Forall_app; split; assumption|].
      rewrite length_app. cbn [List.length]. lia. }
    change (Z.of_nat 7) with 7 in Hv.
    set (K := Text.int_of_digits (digits ++ [c1])) in *.
    exists (PrimFloat.div (of_int K) (of_int 10)), (10 * K).
    split; [reflexivity|].
    split; [change (10 ^ 7) with 10000000 in Hv; change (10 ^ 8) with 100000000; lia|].
    apply hundredths_div10, Hv.
  - cbn [fst]. unfold OcrParser.float_of_token.
    change (10 ^ Z.of_nat (List.length [c1; c2])) with 100.
    assert (Hv : 0 <= Text.int_of_digits (digits ++ [c1; c2]) < 10 ^ Z.of_nat 8).
    { apply int_of_digits_below; [apply Forall_app; split; assumption|].
      rewrite length_app. cbn [List.length]. lia. }
    change (Z.of_nat 8) with 8 in Hv.
    set (K := Text.int_of_digits (digits ++ [c1; c2])) in *.
    exists (PrimFloat.div (of_int K) (of_int 100)), K.
    split; [reflexivity|]. split; [exact Hv|].
    apply hundredths_div100, Hv.
  - cbn [List.length] in Hlf. lia.
Qed.

Lemma is_rne_units M m e :
  0 < M < 10 ^ 8 -> is_rne M 100 m e ->
  -59 <= e <= -33 /\ Zpos m < 2 ^ 53 /\
  Z.abs (100 * (Zpos m * 2 ^ (e + 59)) - M * 2 ^ 59) <= 50 * 2 ^ 26.
Proof.
  intros HM Hr.
  pose proof (is_rne_lower M 100 m e ltac:(lia) Hr) as [Hl Hu].
  destruct Hr as (He & Hm & _).
  set (Q := 2 ^ (- e)) in *.
  assert (HQ : 0 < Q) by (apply Z.pow_pos_nonneg; lia).
  change (10 ^ 8) with 100000000 in HM.
  change (2 ^ 52) with 4503599627370496 in Hm.
  change (2 ^ 53) with 9007199254740992 in Hm.
  assert (He33 : e <= -33).
  { destruct (Z.le_gt_cases e (-33)) as [H|H]; [exact H|exfalso].
    assert (HQ' : Q <= 2 ^ 32) by (apply Z.pow_le_mono_r; lia).
    change (2 ^ 32) with 4294967296 in HQ'. nia. }
  assert (He59 : -59 <= e).
  { destruct (Z.le_gt_cases (-59) e) as [H|H]; [exact H|exfalso].
    assert (HQ' : 2 ^ 60 <= Q) by (apply Z.pow_le_mono_r; lia).
    change (2 ^ 60) with 1152921504606846976 in HQ'. nia. }
  split; [lia|]. split; [change (2 ^ 53) with 9007199254740992; lia|].
  set (P := 2 ^ (e + 59)).
  assert (HP : 0 < P <= 2 ^ 26).
  { split; [apply Z.pow_pos_nonneg; lia | apply Z.pow_le_mono_r; lia]. }
  assert (HQP : Q * P = 2 ^ 59).
  { unfold Q, P. rewrite <- pow2_split by lia. f_equal. lia. }
  assert (Hd : -50 <= 100 * Zpos m - M * Q <= 50) by lia.
  assert (Hd' : -50 * P <= (100 * Zpos m - M * Q) * P <= 50 * P) by nia.
  replace ((100 * Zpos m - M * Q) * P)
    with (100 * (Zpos m * P) - M * (Q * P)) in Hd' by ring.
  rewrite HQP in Hd'. lia.
Qed.

Lemma SFeqb_refl_finite m e :
  SFeqb (S754_finite false m e) (S754_finite false m e) = true.
Proof.
  unfold SFeqb, SFcompare. rewrite Z.compare_refl, Pos.compare_cont_refl.
  reflexivity.
Qed.

(** Two values of hundredths are told apart by the tolerance of the
    scorer exactly when they differ. *)
Lemma hundredths_apart M1 M2 x y :
  0 <= M1 < 10 ^ 8 -> 0 <= M2 < 10 ^ 8 ->
  hundredths M1 x -> hundredths M2 y ->
  ne x y = gt (PrimFloat.abs (PrimFloat.sub x y)) 1e-6.
Proof.
  intros H1 H2 Hx Hy.
  destruct (Z.eq_dec M1 M2) as [<-|Hne].
  - assert (Heq : eq x y = true).
    { unfold eq. rewrite FloatAxioms.eqb_spec.
      destruct Hx as [[HM Hx]|[HM (m1 & e1 & Hx & Hr1)]];
        destruct Hy as [[HM' Hy]|[HM' (m2 & e2 & Hy & Hr2)]]; try lia;
        rewrite Hx, Hy; [reflexivity|].
      destruct (is_rne_unique M1 100 m1 e1 m2 e2) as [-> ->]; try lia; try assumption.
      apply SFeqb_refl_finite. }
    rewrite (equal_sides_not_apart x y Heq).
    unfold ne. fold (eq x y). rewrite Heq. reflexivity.
  - assert (Hgoal : eq x y = false /\
                    gt (PrimFloat.abs (PrimFloat.sub x y)) 1e-6 = true).
    { unfold eq, gt.
      rewrite FloatAxioms.eqb_spec, FloatAxioms.ltb_spec, FloatAxioms.abs_spec,
        FloatAxioms.sub_spec.
      change (Prim2SF 1e-6) with (S754_finite false 4722366482869645 (-72)).
      unfold SF64sub.
      destruct Hx as [[HM Hx]|[HM (m1 & e1 & Hx & Hr1)]];
        destruct Hy as [[HM' Hy]|[HM' (m2 & e2 & Hy & Hr2)]]; try lia;
        rewrite Hx, Hy.
      - destruct (is_rne_units M2 m2 e2 ltac:(lia) Hr2) as (He & _).
        split; [reflexivity|].
        cbn [SFsub SFabs negb]. unfold SFltb, SFcompare.
        destruct (Z.compare_spec (-72) e2); try lia; reflexivity.
      - destruct (is_rne_units M1 m1 e1 ltac:(lia) Hr1) as (He & _).
        split; [reflexivity|].
        cbn [SFsub SFabs]. unfold SFltb, SFcompare.
        destruct (Z.compare_spec (-72) e1); try lia; reflexivity.
      - destruct (is_rne_units M1 m1 e1 ltac:(lia) Hr1) as (He1 & Hm1 & Hu1).
        destruct (is_rne_units M2 m2 e2 ltac:(lia) Hr2) as (He2 & Hm2 & Hu2).
        set (R1 := Zpos m1 * 2 ^ (e1 + 59)) in *.
        set (R2 := Zpos m2 * 2 ^ (e2 + 59)) in *.
        change (2 ^ 59) with 576460752303423488 in Hu1, Hu2.
        change (2 ^ 26) with 67108864 in Hu1, Hu2.
        assert (Hgap : 2 ^ 40 <= Z.abs (R1 - R2)).
        { change (2 ^ 40) with 1099511627776. lia. }
        split.
        + destruct (SFeqb (S754_finite false m1 e1) (S754_finite false m2 e2)) eqn:Hc;
            [|reflexivity].
          apply SFeqb_finite in Hc. destruct Hc as (_ & -> & ->).
          subst R1 R2. rewrite Z.sub_diag in Hgap. cbn in Hgap. lia.
        + apply SFsub_apart; lia. }
    destruct Hgoal as [Heq Hgt]. rewrite Hgt. unfold ne. fold (eq x y).
    rewrite Heq. reflexivity.
Qed.

(** The values of two ratio tokens are equal or more than 1e-6 apart. *)
Lemma token_values_apart token1 token2 num den :
  ratio_token token1 -> ratio_token token2 ->
  token_value token1 = Some num -> token_value token2 = Some den ->
  ne num den = gt (PrimFloat.abs (PrimFloat.sub num den)) 1e-6.
Proof.
  intros Ht1 Ht2 Hn Hd.
  destruct (token_hundredths token1 Ht1) as (x & M1 & Hx & HM1 & Hh1).
  destruct (token_hundredths token2 Ht2) as (y & M2 & Hy & HM2 & Hh2).
  rewrite Hn in Hx. injection Hx as <-.
  rewrite Hd in Hy. injection Hy as <-.
  exact (hundredths_apart M1 M2 num den HM1 HM2 Hh1 Hh2).
Qed.

(** Outside the values of ratio tokens the two formulas part: for
    1.0000001 against 1 the code grants no "different sides" bonus (20),
    the formula of the specification does (21). *)
Lemma score_ignores_tiny_difference :
  _score_ratio 1.0000001 1 false false = 20 /\
  score_as_specified 1.0000001 1 false false = 21.
Proof.
  split; vm_compute; reflexivity.
Qed.

(** C6.  For all inputs the score is the sum of: 10 if both sides are
    positive; 4 if either side is within 1e-6 of 1; 4 if both sides are
    at most 10000, plus 2 more if both are at most 1000; 3 if a decimal
    point was explicit; 1 if the decimal was inferred; 1 if numerator
    and denominator are more than 1e-6 apart; so, for the same
    numerator, denominator and inferred flag, the score with an explicit
    decimal is strictly greater than the score without (by 3).  On the
    values the program scores, which are the values of ratio tokens (one
    to six digits and at most two fraction digits, or an integer from
    1000 on read as hundredths), two sides are more than 1e-6 apart
    exactly when they differ, and the score is the formula of the
    specification, with its last bonus granted when numerator and
    denominator differ. *)
Theorem score_ratio_law (num den : float) (explicit_decimal inferred_decimal : bool) :
  _score_ratio num den explicit_decimal inferred_decimal =
    (if gt num 0 && gt den 0 then 10 else 0)
    + (if lt (PrimFloat.abs (PrimFloat.sub num 1)) 1e-6
          || lt (PrimFloat.abs (PrimFloat.sub den 1)) 1e-6 then 4 else 0)
    + (if le num 10000 && le den 10000
       then 4 + (if le num 1000 && le den 1000 then 2 else 0) else 0)
    + (if explicit_decimal then 3 else 0)
    + (if inferred_decimal then 1 else 0)
    + (if gt (PrimFloat.abs (PrimFloat.sub num den)) 1e-6 then 1 else 0) /\
  _score_ratio num den true inferred_decimal
    = _score_ratio num den false inferred_decimal + 3 /\
  _score_ratio num den true inferred_decimal
    > _score_ratio num den false inferred_decimal /\
  (forall token1 token2,
     ratio_token token1 -> ratio_token token2 ->
     token_value token1 = Some num -> token_value token2 = Some den ->
     ne num den = gt (PrimFloat.abs (PrimFloat.sub num den)) 1e-6 /\
     _score_ratio num den explicit_decimal inferred_decimal
       = score_as_specified num den explicit_decimal inferred_decimal).
Proof.
  destruct (score_ratio_sum num den explicit_decimal inferred_decimal) as [Hsum Hexp].
  split; [exact Hsum|]. split; [exact Hexp|]. split; [lia|].
  intros token1 token2 Ht1 Ht2 Hn Hd.
  pose proof (token_values_apart token1 token2 num den Ht1 Ht2 Hn Hd) as Hapart.
  split; [exact Hapart|].
  rewrite Hsum. unfold score_as_specified. rewrite Hapart. reflexivity.
Qed.

Lemma score_ratio_law_witness :
  (ne 12.5 12.5 = gt (PrimFloat.abs (PrimFloat.sub 12.5 12.5)) 1e-6 /\
   _score_ratio 12.5 12.5 true true = score_as_specified 12.5 12.5 true true) /\
  (ne 3 7 = gt (PrimFloat.abs (PrimFloat.sub 3 7)) 1e-6 /\
   _score_ratio 3 7 false false = score_as_specified 3 7 false false).
Proof.
  split.
  - destruct (score_ratio_law 12.5 12.5 true true) as (_ & _ & _ & H).
    apply (H (list_ascii_of_string "12", list_ascii_of_string "5")
             (list_ascii_of_string "1250", [])).
    + cbn. repeat split; repeat (constructor; try reflexivity); lia.
    + cbn. repeat split; repeat (constructor; try reflexivity); lia.
    + vm_compute. reflexivity.
    + vm_compute. reflexivity.
  - destruct (score_ratio_law 3 7 false false) as (_ & _ & _ & H).
    apply (H (list_ascii_of_string "3", []) (list_ascii_of_string "7", [])).
    + cbn. repeat split; repeat (constructor; try reflexivity); lia.
    + cbn. repeat split; repeat (constructor; try reflexivity); lia.
    + vm_compute. reflexivity.
    + vm_compute. reflexivity.
Defined.

(** * Image helpers *)

Lemma In_range x start stop : In x (range start stop) <-> start <= x < stop.
Proof.
  unfold range. rewrite in_map_iff. split.
  - intros (i & <- & Hi). apply in_seq in Hi. lia.
  - intros H. exists (Z.to_nat (x - start)). split; [lia|].
    apply in_seq. lia.
Qed.

Lemma range_empty start stop : stop <= start -> range start stop = [].
Proof.
  intros H. unfold range. replace (Z.to_nat (stop - start)) with 0%nat by lia.
  reflexivity.
Qed.

Lemma In_rectangle x y x0 x1 y0 y1 :
  In (x, y) (rectangle x0 x1 y0 y1) <-> x0 <= x < x1 /\ y0 <= y < y1.
Proof.
  unfold rectangle. rewrite in_flat_map. split.
  - intros (y' & Hy & Hx). apply in_map_iff in Hx.
    destruct Hx as (x' & [= <- <-] & Hx).
    apply In_range in Hy, Hx. tauto.
  - intros [Hx Hy]. exists y. split; [apply In_range, Hy|].
    apply in_map_iff. exists x. split; [reflexivity | apply In_range, Hx].
Qed.

(** A counting loop adds the number of elements that pass the test. *)
Lemma count_loop {A : Type} (test : A -> bool) (l : list A) (count : Z) :
  fold_left (fun c a => if test a then c + 1 else c) l count
  = count + Z.of_nat (List.length (filter test l)).
Proof.
  revert count. induction l as [|a l IH]; intros count; simpl.
  - lia.
  - rewrite IH. destruct (test a); simpl List.length; lia.
Qed.

(** The row-by-row counting loops count the foreground cells of a
    rectangle. *)
Lemma count_foreground_rectangle binary x0 x1 y0 y1 :
  count_foreground binary (range y0 y1) (range x0 x1) (fun y x => (x, y))
  = Z.of_nat (List.length (filter (foreground binary) (rectangle x0 x1 y0 y1))).
Proof.
  unfold count_foreground, rectangle.
  generalize (range y0 y1) as ys. intros ys.
  assert (H : forall count,
    fold_left
      (fun count a =>
         fold_left
           (fun count b => let '(x, y) := (b, a) in
              if getpixel binary x y >? 0 then count + 1 else count)
           (range x0 x1) count) ys count
    = count + Z.of_nat (List.length (filter (foreground binary)
        (flat_map (fun y => map (fun x => (x, y)) (range x0 x1)) ys)))).
  { induction ys as [|y ys IH]; intros count; simpl.
    - lia.
    - rewrite IH.
      rewrite (count_loop (fun b => getpixel binary b y >? 0) (range x0 x1) count).
      rewrite filter_app, length_app.
      assert (Hrow : List.length (filter (fun b => getpixel binary b y >? 0) (range x0 x1))
                     = List.length (filter (foreground binary)
                                           (map (fun x => (x, y)) (range x0 x1)))).
      { generalize (range x0 x1) as xs. induction xs as [|x xs IHx]; simpl.
        - reflexivity.
        - unfold foreground at 1. simpl fst. simpl snd.
          destruct (getpixel binary x y >? 0); simpl; rewrite IHx; reflexivity. }
      rewrite Hrow. lia. }
  rewrite H. lia.
Qed.

(** The three densities of the classifier, as densities of rectangles:
    the top [max(1, int(height * 0.25))] rows, the band of (at most) three
    columns starting at [width // 2 - 1], and the upper-right quadrant. *)
Lemma classifier_densities binary :
  let width := fst (size binary) in
  let height := snd (size binary) in
  let col_start := Z.max 0 (width / 2 - 1) in
  let col_end := Z.min width (col_start + 3) in
  2 <= width -> 2 <= height ->
  top_ratio binary
    = density binary 0 width 0 (Z.max 1 (int_scaled height 0.25)) /\
  vert_ratio binary = density binary col_start col_end 0 height /\
  upper_right_ratio binary
    = density binary (width / 2) width 0 (height / 2) /\
  col_start < col_end <= width /\ col_end - col_start <= 3.
Proof.
  intros width height col_start col_end Hw Hh.
  subst width height. unfold top_ratio, vert_ratio, upper_right_ratio, density.
  destruct (size binary) as [w h]. simpl fst in *. simpl snd in *.
  rewrite !count_foreground_rectangle.
  assert (Hw2 : 1 <= w / 2) by (apply Z.div_le_lower_bound; lia).
  assert (Hw2' : w / 2 < w) by (apply Z.div_lt; lia).
  assert (Hh2 : 1 <= h / 2) by (apply Z.div_le_lower_bound; lia).
  subst col_start col_end.
  repeat split; try lia.
  - f_equal. lia.
  - f_equal. lia.
  - f_equal. nia.
Qed.

Lemma binarize_size image : size (_binarize_for_ratio image) = size image.
Proof.
  unfold _binarize_for_ratio. destruct (getdata image); [reflexivity|].
  destruct (gt _ _); reflexivity.
Qed.

(** C7, as the specification states it, fails on a crop that is wider
    than nine pixels: for a 30-pixel-wide crop holding a full-height bar
    of three columns, the code measures the three central columns
    (density 1) and answers "1"; the central third of the columns has
    density 0.3, with which the stated rules are inconclusive. *)
Lemma central_band_is_not_a_third :
  _classify_digit_1_7 thin_bar = Some "1"%string /\
  classify_as_specified thin_bar = None /\
  vert_ratio (_binarize_for_ratio thin_bar) = 1%float /\
  density (_binarize_for_ratio thin_bar) 10 20 0 4 = 0.3%float /\
  _classify_digit_1_7 thin_bar <> classify_as_specified thin_bar.
Proof.
  repeat split; vm_compute; (reflexivity || discriminate).
Qed.

(** C7 (amended).  On the binarised crop (at least 2 x 2, otherwise the
    result is inconclusive) the classifier computes the foreground
    density of the top rows (a quarter of the height, at least one row),
    of the band of three columns around the centre (columns [width // 2 -
    1] to [width // 2 + 1], clipped to the image) and of the upper-right
    quadrant, and decides in order: top >= 0.5 and vertical < 0.7 gives
    "7"; top <= 0.35 and vertical >= 0.65 gives "1"; upper-right > 0.35
    and top > 0.4 gives "7"; vertical > upper-right + 0.2 gives "1";
    otherwise inconclusive.  A crop with top density 0.6 and vertical
    density 0.5 classifies as "7". *)
Theorem classify_digit_law (image : Image) :
  let binary := _binarize_for_ratio image in
  let width := fst (size image) in
  let height := snd (size image) in
  let col_start := Z.max 0 (width / 2 - 1) in
  let col_end := Z.min width (col_start + 3) in
  let top := density binary 0 width 0 (Z.max 1 (int_scaled height 0.25)) in
  let vert := density binary col_start col_end 0 height in
  let upper_right := density binary (width / 2) width 0 (height / 2) in
  let first := ge top 0.5 && lt vert 0.7 in
  let second := le top 0.35 && ge vert 0.65 in
  let third := gt upper_right 0.35 && gt top 0.4 in
  let fourth := gt vert (PrimFloat.add upper_right 0.2) in
  (width < 2 \/ height < 2 -> _classify_digit_1_7 image = None) /\
  (2 <= width -> 2 <= height ->
   (first = true -> _classify_digit_1_7 image = Some "7"%string) /\
   (first = false -> second = true ->
    _classify_digit_1_7 image = Some "1"%string) /\
   (first = false -> second = false -> third = true ->
    _classify_digit_1_7 image = Some "7"%string) /\
   (first = false -> second = false -> third = false -> fourth = true ->
    _classify_digit_1_7 image = Some "1"%string) /\
   (first = false -> second = false -> third = false -> fourth = false ->
    _classify_digit_1_7 image = None) /\
   (top = 0.6%float -> vert = 0.5%float ->
    _classify_digit_1_7 image = Some "7"%string)) /\
  (density (_binarize_for_ratio seven_like) 0 5 0 1 = 0.6%float /\
   density (_binarize_for_ratio seven_like) 1 4 0 4 = 0.5%float /\
   _classify_digit_1_7 seven_like = Some "7"%string).
Proof.
  intros binary width height col_start col_end top vert upper_right
         first second third fourth.
  assert (Hsize : size binary = (width, height)).
  { subst binary width height. rewrite binarize_size.
    destruct (size image); reflexivity. }
  split; [|split].
  - intros Hsmall. unfold _classify_digit_1_7. fold binary. rewrite Hsize.
    destruct Hsmall as [H|H].
    + apply Z.ltb_lt in H. rewrite H. reflexivity.
    + apply Z.ltb_lt in H. rewrite H, orb_true_r. reflexivity.
  - intros Hw Hh.
    assert (Hc : _classify_digit_1_7 image = decide_1_7 top vert upper_right).
    { unfold _classify_digit_1_7. fold binary. rewrite Hsize.
      destruct (Z.ltb_spec width 2); [lia|].
      destruct (Z.ltb_spec height 2); [lia|]. cbn [orb].
      pose proof (classifier_densities binary) as Hd.
      rewrite Hsize in Hd. cbn [fst snd] in Hd.
      destruct (Hd Hw Hh) as (-> & -> & -> & _). reflexivity. }
    rewrite Hc. unfold decide_1_7. fold first second third fourth.
    repeat split.
    + intros ->. reflexivity.
    + intros -> ->. reflexivity.
    + intros -> -> ->. reflexivity.
    + intros -> -> -> ->. reflexivity.
    + intros -> -> -> ->. reflexivity.
    + intros Ht Hv. subst first. rewrite Ht, Hv. reflexivity.
  - repeat split; vm_compute; reflexivity.
Qed.

Lemma classify_digit_law_witness :
  _classify_digit_1_7 seven_like = Some "7"%string /\
  _classify_digit_1_7 thin_bar = Some "1"%string /\
  _classify_digit_1_7 (of_rows [[255]]) = None.
Proof.
  destruct (classify_digit_law seven_like) as (_ & Hseven & _).
  destruct (classify_digit_law thin_bar) as (_ & Hbar & _).
  destruct (classify_digit_law (of_rows [[255]])) as (Hsmall & _).
  split; [|split].
  - destruct Hseven as (_ & _ & _ & _ & _ & H);
      [vm_compute; discriminate | vm_compute; discriminate |].
    apply H; vm_compute; reflexivity.
  - destruct Hbar as (_ & H & _);
      [vm_compute; discriminate | vm_compute; discriminate |].
    apply H; vm_compute; reflexivity.
  - apply Hsmall. left. vm_compute. reflexivity.
Defined.

(** ** The gap scan *)

Lemma gap_scan_step counts columns : forall seen m i,
  first_minimum counts seen m i ->
  exists m' i',
    fold_left
      (fun '(min_count, min_idx) x =>
         let count := nth (Z.to_nat x) counts 0 in
         match min_count with
         | None => (Some count, Some x)
         | Some m => if count <? m then (Some count, Some x)
                     else (min_count, min_idx)
         end)
      columns (Some m, Some i) = (Some m', Some i') /\
    first_minimum counts (seen ++ columns) m' i'.
Proof.
  induction columns as [|x columns IH]; intros seen m i Hmin.
  - exists m, i. rewrite app_nil_r. split; [reflexivity | exact Hmin].
  - cbn [fold_left].
    replace (seen ++ x :: columns) with ((seen ++ [x]) ++ columns)
      by (rewrite <- app_assoc; reflexivity).
    destruct Hmin as (before & after & Hseen & Hi & Hb & Ha).
    destruct (Z.ltb_spec (nth (Z.to_nat x) counts 0) m) as [Hlt|Hge].
    + apply IH. exists seen, []. repeat split.
      * intros y Hy. rewrite Hseen in Hy. apply in_app_or in Hy.
        destruct Hy as [Hy|[<-|Hy]].
        -- specialize (Hb y Hy). lia.
        -- lia.
        -- specialize (Ha y Hy). lia.
      * intros y [].
    + apply IH. exists before, (after ++ [x]). repeat split.
      * rewrite Hseen, <- app_assoc. reflexivity.
      * exact Hi.
      * exact Hb.
      * intros y Hy. apply in_app_or in Hy.
        destruct Hy as [Hy|[<-|[]]]; [apply Ha, Hy | exact Hge].
Qed.

(** The scan finds nothing exactly on an empty range, and otherwise the
    first column of least count. *)
Lemma gap_scan_spec counts columns :
  (columns = [] /\ gap_scan counts columns = (None, None)) \/
  (exists m i, gap_scan counts columns = (Some m, Some i) /\
               first_minimum counts columns m i).
Proof.
  destruct columns as [|x columns]; [left; split; reflexivity|].
  right. unfold gap_scan. cbn [fold_left].
  destruct (gap_scan_step counts columns [x] (nth (Z.to_nat x) counts 0) x)
    as (m & i & Hscan & Hmin).
  { exists [], []. repeat split; intros y []. }
  exists m, i. split; [exact Hscan | exact Hmin].
Qed.

Lemma range_cons start stop :
  start < stop -> range start stop = start :: range (start + 1) stop.
Proof.
  intros H. unfold range.
  replace (Z.to_nat (stop - start)) with (S (Z.to_nat (stop - (start + 1)))) by lia.
  cbn [seq map]. f_equal; [lia|].
  rewrite <- seq_shift, map_map. apply map_ext. intros k. lia.
Qed.

(** A range is increasing: what precedes an element is smaller, what
    follows is larger. *)
Lemma range_split before : forall start stop i after,
  range start stop = before ++ i :: after ->
  (forall x, In x before -> start <= x < i) /\
  (forall x, In x after -> i < x < stop).
Proof.
  induction before as [|b before IH]; intros start stop i after Hr.
  - destruct (Z.lt_ge_cases start stop) as [Hlt|Hge].
    + rewrite (range_cons _ _ Hlt) in Hr. injection Hr as <- <-.
      split; [intros x [] | intros x Hx; apply In_range in Hx; lia].
    + rewrite (range_empty _ _ Hge) in Hr. discriminate.
  - destruct (Z.lt_ge_cases start stop) as [Hlt|Hge].
    + rewrite (range_cons _ _ Hlt) in Hr. injection Hr as <- Hr.
      destruct (IH _ _ _ _ Hr) as [Hb Ha].
      assert (Hi : In i (range (start + 1) stop))
        by (rewrite Hr; apply in_elt).
      apply In_range in Hi.
      split; [|exact Ha].
      intros x [<-|Hx]; [lia|]. specialize (Hb x Hx). lia.
    + rewrite (range_empty _ _ Hge) in Hr. discriminate.
Qed.

Lemma first_minimum_range counts start stop m i :
  first_minimum counts (range start stop) m i ->
  start <= i < stop /\
  nth (Z.to_nat i) counts 0 = m /\
  (forall x, start <= x < stop -> m <= nth (Z.to_nat x) counts 0) /\
  (forall x, start <= x < i -> m < nth (Z.to_nat x) counts 0).
Proof.
  intros (before & after & Hcols & Hi & Hb & Ha).
  destruct (range_split _ _ _ _ _ Hcols) as [Hlow Hhigh].
  assert (Hin : forall x, start <= x < stop <-> In x before \/ x = i \/ In x after).
  { intros x. rewrite <- In_range, Hcols, in_app_iff. simpl.
    split; intros [H|[H|H]]; auto. }
  assert (Hi_in : start <= i < stop) by (apply Hin; auto).
  repeat split; try lia; try assumption.
  - intros x Hx. apply Hin in Hx. destruct Hx as [Hx|[->|Hx]].
    + specialize (Hb x Hx). lia.
    + lia.
    + apply Ha, Hx.
  - intros x Hx.
    assert (Hx' : start <= x < stop) by lia.
    apply Hin in Hx'. destruct Hx' as [Hx'|[->|Hx']]; [apply Hb, Hx' | lia |].
    specialize (Hhigh x Hx'). lia.
Qed.

(** An entry of [column_counts] is the number of lit pixels of its column. *)
Lemma column_counts_nth binary x :
  let width := fst (size binary) in
  let height := snd (size binary) in
  0 <= x < width ->
  nth (Z.to_nat x) (column_counts binary) 0
  = Z.of_nat (List.length (filter (fun y => getpixel binary x y >? 0)
                                  (range 0 height))).
Proof.
  intros width height Hx. subst width height. unfold column_counts.
  destruct (size binary) as [w h]. cbn [fst snd] in *.
  set (f := fun x => count_foreground binary [x] (range 0 h) (fun x y => (x, y))).
  rewrite (nth_indep _ 0 (f 0)).
  2:{ rewrite length_map. unfold range. rewrite length_map, length_seq. lia. }
  rewrite map_nth. unfold range at 1.
  rewrite (nth_indep _ 0 (0 + Z.of_nat 0)).
  2:{ rewrite length_map, length_seq. lia. }
  rewrite (map_nth (fun i => 0 + Z.of_nat i)), seq_nth by lia.
  replace (0 + Z.of_nat (0 + Z.to_nat x)) with x by lia.
  subst f. unfold count_foreground. cbn [fold_left].
  rewrite (count_loop (fun y => getpixel binary x y >? 0)). lia.
Qed.

(** For widths below 4096, [int(width * 0.25)] and [int(width * 0.75)]
    are the quarter and the three quarters of the width, rounded down. *)
Lemma middle_half_bounds width :
  0 <= width < 4096 ->
  int_scaled width 0.25 = width / 4 /\ int_scaled width 0.75 = 3 * width / 4.
Proof.
  intros Hw.
  assert (Hall : forallb (fun w => (int_scaled w 0.25 =? w / 4)
                                   && (int_scaled w 0.75 =? 3 * w / 4))
                         (range 0 4096) = true)
    by (vm_compute; reflexivity).
  rewrite forallb_forall in Hall.
  specialize (Hall width (proj2 (In_range _ _ _) Hw)).
  apply andb_true_iff in Hall. rewrite !Z.eqb_eq in Hall. exact Hall.
Qed.

(** [_split_ratio_by_gap], with the sizes of the two crops computed. *)
Lemma split_ratio_by_gap_unfold image :
  let binary := _binarize_for_ratio image in
  let width := fst (size image) in
  let height := snd (size image) in
  _split_ratio_by_gap image =
    if (width <? 6) || (height <? 4) then None
    else
      let '(min_count, min_idx) :=
        gap_scan (column_counts binary)
                 (range (int_scaled width 0.25) (int_scaled width 0.75)) in
      match min_idx with
      | None => None
      | Some min_idx =>
          if match min_count with
             | Some m => m >? Z.max 2 (int_scaled height 0.15)
             | None => false
             end
          then None
          else
            if (min_idx <? 2) || (width - (min_idx + 1) <? 2) then None
            else Some (crop image (0, 0, min_idx, height),
                       crop image (min_idx + 1, 0, width, height))
      end.
Proof.
  intros binary width height.
  assert (Hsize : size binary = (width, height)).
  { subst binary width height. rewrite binarize_size.
    destruct (size image); reflexivity. }
  unfold _split_ratio_by_gap. fold binary. rewrite Hsize.
  destruct ((width <? 6) || (height <? 4)); [reflexivity|].
  destruct (gap_scan _ _) as [mc [mi|]]; [|reflexivity].
  cbn [crop size fst]. rewrite Z.sub_0_r. reflexivity.
Qed.

(** C8, as the specification states it, fails on low images: in an 8 x 12
    image whose emptiest middle column holds 2 lit pixels, 2 exceeds 15%
    of the height (1.8), yet the split is returned, because the threshold
    is never taken below 2. *)
Lemma low_image_is_not_rejected :
  ~ rejects_above_15_percent two_lit_rows.
Proof.
  unfold rejects_above_15_percent. rewrite binarize_size.
  change (size two_lit_rows) with (8, 12).
  intros H.
  assert (Hscan : gap_scan (column_counts (_binarize_for_ratio two_lit_rows))
                           (range (int_scaled 8 0.25) (int_scaled 8 0.75))
                  = (Some 2, Some 2)) by (vm_compute; reflexivity).
  specialize (H 2 2 Hscan ltac:(lia)).
  rewrite split_ratio_by_gap_unfold in H.
  change (size two_lit_rows) with (8, 12) in H. cbn [fst snd] in H.
  rewrite Hscan in H.
  replace (int_scaled 12 0.15) with 1 in H by (vm_compute; reflexivity).
  cbn [Z.ltb Z.gtb Z.max Z.compare Pos.compare Pos.compare_cont orb
       Z.add Z.sub Z.opp Z.pos_sub Pos.add Pos.succ Pos.pred_double
       Z.succ_double Z.pred_double Z.double] in H.
  discriminate H.
Qed.

(** C8 (amended).  An image less than 6 pixels wide or less than 4 high
    is not split.  For every other binarised image the gap split scans
    exactly the columns from [int(width * 0.25)] up to, not including,
    [int(width * 0.75)] (the middle half of the width) and takes the
    first of them with the fewest lit pixels; it returns no split
    whenever that least count exceeds [max(2, int(height * 0.15))], and
    no split when the part to the left or to the right of that column
    would be narrower than 2 pixels; in every other case it splits at
    that column. *)
Theorem gap_split_law (image : Image) :
  let binary := _binarize_for_ratio image in
  let width := fst (size image) in
  let height := snd (size image) in
  let counts := column_counts binary in
  let start := int_scaled width 0.25 in
  let end_ := int_scaled width 0.75 in
  (0 <= width < 4096 -> start = width / 4 /\ end_ = 3 * width / 4) /\
  (forall x, 0 <= x < width ->
     nth (Z.to_nat x) counts 0
     = Z.of_nat (List.length (filter (fun y => getpixel binary x y >? 0)
                                     (range 0 height)))) /\
  (width < 6 \/ height < 4 -> _split_ratio_by_gap image = None) /\
  (end_ <= start -> _split_ratio_by_gap image = None) /\
  (start < end_ ->
   exists m i, gap_scan counts (range start end_) = (Some m, Some i)) /\
  (forall m i,
     gap_scan counts (range start end_) = (Some m, Some i) ->
     (start <= i < end_ /\
      nth (Z.to_nat i) counts 0 = m /\
      (forall x, start <= x < end_ -> m <= nth (Z.to_nat x) counts 0) /\
      (forall x, start <= x < i -> m < nth (Z.to_nat x) counts 0)) /\
     (m > Z.max 2 (int_scaled height 0.15) ->
      _split_ratio_by_gap image = None) /\
     (i < 2 \/ width - (i + 1) < 2 ->
      _split_ratio_by_gap image = None) /\
     (6 <= width -> 4 <= height ->
      m <= Z.max 2 (int_scaled height 0.15) ->
      2 <= i -> 2 <= width - (i + 1) ->
      _split_ratio_by_gap image
      = Some (crop image (0, 0, i, height),
              crop image (i + 1, 0, width, height)))).
Proof.
  intros binary width height counts start end_.
  assert (Hsize : size binary = (width, height)).
  { subst binary width height. rewrite binarize_size.
    destruct (size image); reflexivity. }
  split; [apply middle_half_bounds|].
  split.
  { intros x Hx. pose proof (column_counts_nth binary x) as H.
    rewrite Hsize in H. apply H, Hx. }
  pose proof (split_ratio_by_gap_unfold image) as Hunfold.
  cbv zeta in Hunfold. fold binary width height counts start end_ in Hunfold.
  split; [|split; [|split]].
  - intros Hsmall. rewrite Hunfold.
    destruct (Z.ltb_spec width 6); [reflexivity|].
    destruct (Z.ltb_spec height 4); [reflexivity|]. lia.
  - intros Hempty. rewrite Hunfold.
    destruct ((width <? 6) || (height <? 4)); [reflexivity|].
    rewrite (range_empty _ _ Hempty). reflexivity.
  - intros Hlt.
    destruct (gap_scan_spec counts (range start end_))
      as [[Hnil _]|(m & i & Hscan & _)].
    + rewrite (range_cons _ _ Hlt) in Hnil. discriminate.
    + exists m, i. exact Hscan.
  - intros m i Hscan.
    split; [|split; [|split]].
    + apply first_minimum_range.
      destruct (gap_scan_spec counts (range start end_))
        as [[_ Hnone]|(m' & i' & Hscan' & Hmin)]; [congruence|].
      rewrite Hscan in Hscan'. injection Hscan' as <- <-. exact Hmin.
    + intros Hgt. rewrite Hunfold, Hscan.
      destruct ((width <? 6) || (height <? 4)); [reflexivity|].
      destruct (Z.gtb_spec m (Z.max 2 (int_scaled height 0.15))); [reflexivity | lia].
    + intros Hnarrow. rewrite Hunfold, Hscan.
      destruct ((width <? 6) || (height <? 4)); [reflexivity|].
      destruct (m >? Z.max 2 (int_scaled height 0.15)); [reflexivity|].
      destruct (Z.ltb_spec i 2); [reflexivity|].
      destruct (Z.ltb_spec (width - (i + 1)) 2); [reflexivity|]. lia.
    + intros Hw Hh Hle Hl Hr. rewrite Hunfold, Hscan.
      destruct (Z.ltb_spec width 6); [lia|].
      destruct (Z.ltb_spec height 4); [lia|]. cbn [orb].
      destruct (Z.gtb_spec m (Z.max 2 (int_scaled height 0.15))); [lia|].
      destruct (Z.ltb_spec i 2); [lia|].
      destruct (Z.ltb_spec (width - (i + 1)) 2); [lia|]. reflexivity.
Qed.

Lemma gap_split_law_witness :
  _split_ratio_by_gap two_lit_rows
    = Some (crop two_lit_rows (0, 0, 2, 12), crop two_lit_rows (3, 0, 8, 12)) /\
  _split_ratio_by_gap
    (of_rows (repeat (repeat 255 12) 4 ++ repeat (repeat 0 12) 6)) = None /\
  _split_ratio_by_gap dark_4x10 = None /\
  _split_ratio_by_gap dark_6x4 = None.
Proof.
  split; [|split; [|split]].
  - assert (Hscan : gap_scan (column_counts (_binarize_for_ratio two_lit_rows))
                             (range (int_scaled 8 0.25) (int_scaled 8 0.75))
                    = (Some 2, Some 2)) by (vm_compute; reflexivity).
    destruct (gap_split_law two_lit_rows) as (_ & _ & _ & _ & _ & H).
    destruct (H 2 2 Hscan) as (_ & _ & _ & Hsplit).
    apply Hsplit; vm_compute; intros Hc; discriminate Hc.
  - set (image := of_rows (repeat (repeat 255 12) 4 ++ repeat (repeat 0 12) 6)).
    assert (Hscan : gap_scan (column_counts (_binarize_for_ratio image))
                             (range (int_scaled 12 0.25) (int_scaled 12 0.75))
                    = (Some 4, Some 3)) by (vm_compute; reflexivity).
    destruct (gap_split_law image) as (_ & _ & _ & _ & _ & H).
    destruct (H 4 3 Hscan) as (_ & Hreject & _).
    apply Hreject. vm_compute. reflexivity.
  - destruct (gap_split_law dark_4x10) as (_ & _ & Hsmall & _).
    apply Hsmall. left. vm_compute. reflexivity.
  - assert (Hscan : gap_scan (column_counts (_binarize_for_ratio dark_6x4))
                             (range (int_scaled 6 0.25) (int_scaled 6 0.75))
                    = (Some 0, Some 1)) by (vm_compute; reflexivity).
    destruct (gap_split_law dark_6x4) as (_ & _ & _ & _ & _ & H).
    destruct (H 0 1 Hscan) as (_ & _ & Hnarrow & _).
    apply Hnarrow. left. vm_compute. reflexivity.
Defined.

(** * The fallback text parser *)

Lemma py_min_least first others :
  In (OcrParser.py_min first others) (first :: others) /\
  (forall v, In v (first :: others) -> OcrParser.py_min first others <= v).
Proof.
  unfold OcrParser.py_min. revert first.
  induction others as [|x others IH]; intros first; cbn [fold_left].
  - split; [left; reflexivity | intros v [<-|[]]; lia].
  - destruct (IH (Z.min first x)) as [Hin Hle]. split.
    + destruct Hin as [Hin|Hin]; [|right; right; exact Hin].
      rewrite <- Hin. destruct (Z.min_spec first x) as [[_ ->]|[_ ->]];
        [left | right; left]; reflexivity.
    + intros v [<-|[<-|Hv]].
      * specialize (Hle (Z.min first x) (or_introl eq_refl)). lia.
      * specialize (Hle (Z.min first x) (or_introl eq_refl)). lia.
      * apply Hle. right. exact Hv.
Qed.

Lemma py_max_greatest first others :
  In (OcrParser.py_max first others) (first :: others) /\
  (forall v, In v (first :: others) -> v <= OcrParser.py_max first others).
Proof.
  unfold OcrParser.py_max. revert first.
  induction others as [|x others IH]; intros first; cbn [fold_left].
  - split; [left; reflexivity | intros v [<-|[]]; lia].
  - destruct (IH (Z.max first x)) as [Hin Hle]. split.
    + destruct Hin as [Hin|Hin]; [|right; right; exact Hin].
      rewrite <- Hin. destruct (Z.max_spec first x) as [[_ ->]|[_ ->]];
        [right; left | left]; reflexivity.
    + intros v [<-|[<-|Hv]].
      * specialize (Hle (Z.max first x) (or_introl eq_refl)). lia.
      * specialize (Hle (Z.max first x) (or_introl eq_refl)). lia.
      * apply Hle. right. exact Hv.
Qed.

(** [_remove_once] removes the first occurrence of the target and nothing
    else; without an occurrence the list is unchanged. *)
Lemma remove_once_spec values target :
  (In target values ->
   exists before after,
     values = before ++ target :: after /\
     ~ In target before /\
     OcrParser._remove_once values target = before ++ after) /\
  (~ In target values -> OcrParser._remove_once values target = values).
Proof.
  induction values as [|v values [IHin IHout]]; cbn [OcrParser._remove_once].
  - split; [intros [] | reflexivity].
  - destruct (Z.eqb_spec v target) as [->|Hne]; split.
    + intros _. exists [], values. repeat split. intros [].
    + intros Hout. exfalso. apply Hout. left. reflexivity.
    + intros [Heq|Hin]; [congruence|].
      destruct (IHin Hin) as (before & after & -> & Hb & ->).
      exists (v :: before), after. repeat split.
      intros [Heq|Hin']; [congruence | exact (Hb Hin')].
    + intros Hout. f_equal. apply IHout. intros Hin. apply Hout. right. exact Hin.
Qed.

(** [parse] on a text that is not blank, by the three values found on
    the lines. *)
Lemma parse_unfold text c raw :
  Text.strip (list_ascii_of_string text) = c :: raw ->
  let lines := OcrParser.stripped_lines (c :: raw) in
  let found_items := OcrParser._find_items lines in
  let found_price := OcrParser._find_price lines in
  let ratio := OcrParser._find_ratio lines in
  let fallback :=
    (OcrParser.is_none found_items || OcrParser.is_none found_price)
    && OcrParser.both_truthy (fst ratio) (snd ratio) in
  ratio_num (OcrParser.parse text) = fst ratio /\
  ratio_den (OcrParser.parse text) = snd ratio /\
  raw_text (OcrParser.parse text) = string_of_list_ascii (c :: raw) /\
  items (OcrParser.parse text) =
    (if fallback then
       match OcrParser.remaining_numbers (c :: raw), found_items with
       | first :: others, None => Some (OcrParser.py_min first others)
       | _, _ => found_items
       end
     else found_items) /\
  listing_price (OcrParser.parse text) =
    (if fallback then
       match OcrParser.remaining_numbers (c :: raw), found_price with
       | first :: others, None => Some (OcrParser.py_max first others)
       | _, _ => found_price
       end
     else found_price).
Proof.
  intros Hraw lines found_items found_price ratio fallback.
  unfold OcrParser.parse. rewrite Hraw. fold lines.
  subst fallback. fold ratio found_items found_price.
  destruct ratio as [rn rd]. cbn [fst snd].
  destruct ((OcrParser.is_none found_items || OcrParser.is_none found_price)
            && OcrParser.both_truthy rn rd).
  - destruct (OcrParser.remaining_numbers (c :: raw)) as [|first others];
      destruct found_items, found_price; cbn; repeat split; reflexivity.
  - cbn. repeat split; reflexivity.
Qed.

(** C9, as the specification states it, fails when one of the two values
    was found by its label: in ["Ratio 3:7\n120 items\n45"] the ratio is
    found, the price is missing and the remaining numbers are 120 and 45,
    but items keeps the labelled 120 instead of the minimum 45 (and a
    ratio with a zero side, as in ["0:5 120 45"], starts no fallback). *)
Lemma labelled_items_are_kept :
  ~ fallback_as_specified labelled_items_text /\
  items (OcrParser.parse labelled_items_text) = Some 120 /\
  OcrParser.remaining_numbers
    (Text.strip (list_ascii_of_string labelled_items_text)) = [120; 45] /\
  items (OcrParser.parse "0:5 120 45") = None.
Proof.
  split; [|repeat split; vm_compute; reflexivity].
  intros H.
  destruct (H 3%float 7%float 120 [45]) as [Hitems _];
    try (vm_compute; reflexivity).
  - right. vm_compute. reflexivity.
  - vm_compute in Hitems. discriminate Hitems.
Qed.

(** C9 (amended).  For every recognised text that is not blank: when
    items or price is missing after the labelled search and both sides of
    the found ratio are non-zero, the parser takes all numbers of the
    text, removes one occurrence (the first) of the integer part of each
    ratio side, and, if numbers remain, gives the minimum of them to
    items if items is missing and the maximum to price if price is
    missing; a value found by its label is kept.  In every other case
    items and price stay as found.  With ratio 3:7 and remaining numbers
    120 and 45, none labelled, items = 45 and price = 120. *)
Theorem parse_fallback_law (text : string) (values : list Z) (target : Z) :
  let raw_text := Text.strip (list_ascii_of_string text) in
  let lines := OcrParser.stripped_lines raw_text in
  let found_items := OcrParser._find_items lines in
  let found_price := OcrParser._find_price lines in
  let ratio := OcrParser._find_ratio lines in
  let fallback :=
    (OcrParser.is_none found_items || OcrParser.is_none found_price)
    && OcrParser.both_truthy (fst ratio) (snd ratio) in
  let parsed := OcrParser.parse text in
  (raw_text <> [] ->
   ratio_num parsed = fst ratio /\ ratio_den parsed = snd ratio /\
   (fallback = true ->
    forall first others,
      OcrParser.remaining_numbers raw_text = first :: others ->
      let least := OcrParser.py_min first others in
      let greatest := OcrParser.py_max first others in
      In least (first :: others) /\ In greatest (first :: others) /\
      (forall v, In v (first :: others) -> least <= v <= greatest) /\
      (found_items = None -> items parsed = Some least) /\
      (found_price = None -> listing_price parsed = Some greatest) /\
      (forall v, found_items = Some v -> items parsed = Some v) /\
      (forall v, found_price = Some v -> listing_price parsed = Some v)) /\
   (fallback = true -> OcrParser.remaining_numbers raw_text = [] ->
    items parsed = found_items /\ listing_price parsed = found_price) /\
   (fallback = false ->
    items parsed = found_items /\ listing_price parsed = found_price)) /\
  (raw_text = [] -> items parsed = None /\ listing_price parsed = None /\
                    ratio_num parsed = None /\ ratio_den parsed = None) /\
  OcrParser.remaining_numbers raw_text
    = fold_left OcrParser._remove_once
                (OcrParser._extract_ratio_numbers raw_text)
                (OcrParser._extract_numbers raw_text) /\
  (In target values ->
   exists before after,
     values = before ++ target :: after /\ ~ In target before /\
     OcrParser._remove_once values target = before ++ after) /\
  (~ In target values -> OcrParser._remove_once values target = values) /\
  (ratio_num (OcrParser.parse unlabelled_text) = Some 3%float /\
   ratio_den (OcrParser.parse unlabelled_text) = Some 7%float /\
   OcrParser.remaining_numbers (list_ascii_of_string unlabelled_text) = [120; 45] /\
   items (OcrParser.parse unlabelled_text) = Some 45 /\
   listing_price (OcrParser.parse unlabelled_text) = Some 120) /\
  (ratio_num (OcrParser.parse scenario_A_text) = Some 3%float /\
   ratio_den (OcrParser.parse scenario_A_text) = Some 7%float /\
   items (OcrParser.parse scenario_A_text) = Some 120 /\
   listing_price (OcrParser.parse scenario_A_text) = Some 120).
Proof.
  intros raw_text lines found_items found_price ratio fallback parsed.
  split; [|split; [|split; [reflexivity|split; [|split; [|split]]]]].
  3: apply remove_once_spec.
  3: apply remove_once_spec.
  3: repeat split; vm_compute; reflexivity.
  3: repeat split; vm_compute; reflexivity.
  - intros Hne.
    destruct raw_text as [|c raw] eqn:Hraw; [congruence|].
    destruct (parse_unfold text c raw Hraw) as (Hn & Hd & _ & Hi & Hp).
    fold lines found_items found_price ratio fallback parsed in Hn, Hd, Hi, Hp.
    split; [exact Hn|]. split; [exact Hd|].
    split; [|split].
    + intros Hf first others Hrest least greatest.
      rewrite Hf, Hrest in Hi, Hp.
      destruct (py_min_least first others) as [Hmin_in Hmin].
      destruct (py_max_greatest first others) as [Hmax_in Hmax].
      subst least greatest.
      split; [exact Hmin_in|]. split; [exact Hmax_in|].
      split; [intros v Hv; split; [apply Hmin | apply Hmax]; exact Hv|].
      repeat split.
      * intros Hnone. rewrite Hnone in Hi. exact Hi.
      * intros Hnone. rewrite Hnone in Hp. exact Hp.
      * intros v Hsome. rewrite Hsome in Hi. exact Hi.
      * intros v Hsome. rewrite Hsome in Hp. exact Hp.
    + intros Hf Hrest. rewrite Hf, Hrest in Hi, Hp. split; assumption.
    + intros Hf. rewrite Hf in Hi, Hp. split; assumption.
  - intros Hempty. subst parsed. unfold OcrParser.parse.
    fold raw_text. rewrite Hempty. repeat split; reflexivity.
Qed.

Lemma parse_fallback_law_witness :
  items (OcrParser.parse unlabelled_text) = Some 45 /\
  listing_price (OcrParser.parse unlabelled_text) = Some 120 /\
  items (OcrParser.parse labelled_items_text) = Some 120 /\
  listing_price (OcrParser.parse labelled_items_text) = Some 120 /\
  OcrParser._remove_once [3; 120] 7 = [3; 120].
Proof.
  destruct (parse_fallback_law unlabelled_text [3; 120] 7)
    as (Hu & _ & _ & _ & Hrem & _).
  destruct (parse_fallback_law labelled_items_text [] 0) as (Hl & _).
  destruct Hu as (_ & _ & Hu & _); [vm_compute; intros Hc; discriminate Hc|].
  destruct Hl as (_ & _ & Hl & _); [vm_compute; intros Hc; discriminate Hc|].
  pose proof (Hu ltac:(vm_compute; reflexivity) 120 [45]
                 ltac:(vm_compute; reflexivity)) as Hu'.
  pose proof (Hl ltac:(vm_compute; reflexivity) 120 [45]
                 ltac:(vm_compute; reflexivity)) as Hl'.
  cbv zeta in Hu', Hl'.
  destruct Hu' as (_ & _ & _ & Hui & Hup & _).
  destruct Hl' as (_ & _ & _ & _ & Hlp & Hli & _).
  split; [apply Hui; vm_compute; reflexivity|].
  split; [apply Hup; vm_compute; reflexivity|].
  split; [apply (Hli 120); vm_compute; reflexivity|].
  split; [apply Hlp; vm_compute; reflexivity|].
  apply Hrem. intros [Hc|[Hc|[]]]; discriminate Hc.
Defined.
